(** * Lesson-plan and quiz tool: parsers and session state

  A shallow embedding of the text parsers and of the session-state
  handlers of [streamlit_app.py] and [streamlit_app_QuestionGen.py],
  with the properties the specification states about them.

  Modelling conventions.
  - A Python [str] is a [string]: a sequence of code points below 256.
    Whitespace, decimal digits and lower-casing are those of Python on
    that range.
  - A Python [dict] whose iteration order is observed is an association
    list with Python's update rule (an existing key keeps its position,
    a new key goes last).
  - A Python [set] of indices is a [gset nat]; dictionaries that are
    shared by reference live in a store keyed by location.
  - The text returned by the language-model service is an input of the
    handlers. *)

From Stdlib Require Import ZArith Lia Ascii.
From Stdlib Require String.
From stdpp Require Import gmap strings.

(** ** Python string primitives *)

Module Py.

(** ["\n"] *)
Definition NL : ascii := "010"%char.
Definition nl : string := String NL "".

(** [str.isspace] on one code point below 256. *)
Definition isspace (c : ascii) : bool :=
  let n := nat_of_ascii c in
  ((9 <=? n) && (n <=? 13)) || ((28 <=? n) && (n <=? 32))
  || (n =? 133) || (n =? 160).

(** [\d] of the [re] module on one code point below 256. *)
Definition isdigit (c : ascii) : bool :=
  let n := nat_of_ascii c in (48 <=? n) && (n <=? 57).

Definition lower_char (c : ascii) : ascii :=
  let n := nat_of_ascii c in
  if ((65 <=? n) && (n <=? 90))
     || ((192 <=? n) && (n <=? 222) && negb (n =? 215))
  then ascii_of_nat (n + 32) else c.

(** [s.lower()] *)
Fixpoint lower (s : string) : string :=
  match s with
  | EmptyString => EmptyString
  | String c s' => String (lower_char c) (lower s')
  end.

(** Truth value of a string: only the empty string is false. *)
Definition truthy (s : string) : bool :=
  match s with EmptyString => false | String _ _ => true end.

(** Truth value of a value that is [None] or a string. *)
Definition truthy_opt (o : option string) : bool :=
  match o with None => false | Some s => truthy s end.

(** Truth value of a list. *)
Definition nonempty {A} (l : list A) : bool :=
  match l with [] => false | _ :: _ => true end.

Fixpoint lstrip (s : string) : string :=
  match s with
  | EmptyString => EmptyString
  | String c s' => if isspace c then lstrip s' else s
  end.

Fixpoint rstrip (s : string) : string :=
  match s with
  | EmptyString => EmptyString
  | String c s' =>
      match rstrip s' with
      | EmptyString => if isspace c then EmptyString else String c EmptyString
      | r => String c r
      end
  end.

(** [s.strip()] *)
Definition strip (s : string) : string := rstrip (lstrip s).

(** [s.split(sep)] for a separator of one character. *)
Fixpoint split (sep : ascii) (s : string) : list string :=
  match s with
  | EmptyString => [EmptyString]
  | String c s' =>
      if Ascii.eqb c sep then EmptyString :: split sep s'
      else match split sep s' with
           | [] => [String c EmptyString]
           | piece :: pieces => String c piece :: pieces
           end
  end.

(** [sep.join(l)] *)
Fixpoint join (sep : string) (l : list string) : string :=
  match l with
  | [] => EmptyString
  | [x] => x
  | x :: l' => x +:+ sep +:+ join sep l'
  end.

(** [s.startswith(p)] *)
Definition startswith (p s : string) : bool := String.prefix p s.

(** [s.startswith((p1, p2, ...))] *)
Definition startswith_any (ps : list string) (s : string) : bool :=
  existsb (fun p => startswith p s) ps.

(** [needle in hay] *)
Fixpoint contains (needle hay : string) : bool :=
  String.prefix needle hay
  || match hay with
     | EmptyString => false
     | String _ hay' => contains needle hay'
     end.

(** [s[n:]] for [n >= 0] *)
Fixpoint slice_from (n : nat) (s : string) : string :=
  match n, s with
  | S k, String _ s' => slice_from k s'
  | _, _ => s
  end.

(** [s.replace(old, new)] for a non-empty [old]: occurrences are
    replaced from left to right and do not overlap. [skip] counts the
    characters of a matched occurrence still to pass over. *)
Fixpoint replace_go (old new : string) (skip : nat) (s : string) : string :=
  match s with
  | EmptyString => EmptyString
  | String c s' =>
      match skip with
      | S k => replace_go old new k s'
      | O =>
          if String.prefix old s
          then new +:+ replace_go old new (String.length old - 1) s'
          else String c (replace_go old new 0 s')
      end
  end.

Definition replace (old new s : string) : string := replace_go old new 0 s.

(** *** [re.split(r'\n\d+\.|Question \d+:', text)] *)

(** Number of leading decimal digits. *)
Fixpoint count_digits (s : string) : nat :=
  match s with
  | String c s' => if isdigit c then S (count_digits s') else 0
  | EmptyString => 0
  end.

(** [\d+] followed by the character [stop], at the start of [s]: the
    length of the match. The digits are taken greedily; giving one back
    leaves a digit where [stop] is wanted, so no shorter run matches. *)
Definition digits_then (stop : ascii) (s : string) : option nat :=
  let k := count_digits s in
  if (0 <? k) && bool_decide (String.get k s = Some stop)
  then Some (S k) else None.

(** Length of a match of the pattern at the start of [s], the
    alternatives tried in order. *)
Definition match_marker (s : string) : option nat :=
  match s with
  | String c s' =>
      match (if Ascii.eqb c NL then digits_then "."%char s' else None) with
      | Some n => Some (S n)
      | None =>
          if String.prefix "Question " s
          then option_map (Nat.add 9) (digits_then ":"%char (slice_from 9 s))
          else None
      end
  | EmptyString => None
  end.

(** The split: [cur] is the piece being read, reversed; [skip] counts
    the characters of a matched marker still to pass over. The pattern
    has no group, so only the pieces between the matches are returned. *)
Fixpoint re_split_go (skip : nat) (cur : list ascii) (s : string)
  : list string :=
  match s with
  | EmptyString => [String.string_of_list_ascii (rev cur)]
  | String c s' =>
      match skip with
      | S k => re_split_go k cur s'
      | O =>
          match match_marker s with
          | Some n => String.string_of_list_ascii (rev cur) :: re_split_go (n - 1) [] s'
          | None => re_split_go 0 (c :: cur) s'
          end
      end
  end.

Definition re_split (text : string) : list string := re_split_go 0 [] text.

End Py.

(** ** An insertion-ordered dictionary with string keys *)

Definition dict (V : Type) : Type := list (string * V).

(** [d[k] = v] *)
Fixpoint dict_set {V} (d : dict V) (k : string) (v : V) : dict V :=
  match d with
  | [] => [(k, v)]
  | (k', v') :: d' =>
      if String.eqb k' k then (k', v) :: d'
      else (k', v') :: dict_set d' k v
  end.

(** [d.get(k)] *)
Fixpoint dict_get {V} (d : dict V) (k : string) : option V :=
  match d with
  | [] => None
  | (k', v') :: d' => if String.eqb k' k then Some v' else dict_get d' k
  end.

Definition dict_keys {V} (d : dict V) : list string := map fst d.

(** ** [parse_lesson_sections] (streamlit_app.py) *)

Module Sections.

Definition SECTION_LABELS : list string :=
  ["Overview:"; "Learning Objectives:"; "Required Materials:";
   "Preparation Steps:"; "Lesson Procedure:";
   "Extensions and Modifications:"; "Assessment Criteria:";
   "Safety Considerations:"; "Take-Home Connection:"]%string.

(** [any(section in line for section in [...])] *)
Definition is_header (line : string) : bool :=
  existsb (fun section => Py.contains section line) SECTION_LABELS.

(** The three local variables of the loop. *)
Record locals := Locals {
  sections : dict string;
  current_section : option string;
  current_content : list string
}.

Definition initial : locals := Locals [] None [].

(** [sections[current_section] = '\n'.join(current_content).strip()] *)
Definition flush (st : locals) : dict string :=
  match current_section st with
  | Some name =>
      dict_set (sections st) name
        (Py.strip (Py.join Py.nl (current_content st)))
  | None => sections st
  end.

(** One iteration of [for line in content.split('\n')]. *)
Definition loop_body (st : locals) (line : string) : locals :=
  if is_header line then
    Locals (if Py.truthy_opt (current_section st) then flush st
            else sections st)
           (Some (Py.strip line)) []
  else if Py.truthy_opt (current_section st) && Py.truthy (Py.strip line)
  then Locals (sections st) (current_section st)
              (current_content st ++ [Py.strip line])
  else st.

(** The statements after the loop. *)
Definition finish (st : locals) : dict string :=
  if Py.truthy_opt (current_section st) && Py.nonempty (current_content st)
  then flush st else sections st.

(** [content] is [None] or a string. *)
Definition parse_lesson_sections (content : option string) : dict string :=
  match content with
  | None => []
  | Some text =>
      if negb (Py.truthy text) then []
      else finish (fold_left loop_body (Py.split Py.NL text) initial)
  end.

End Sections.

(** ** [parse_generated_questions] and [check_answer]
     (streamlit_app_QuestionGen.py) *)

Module Questions.

(** The dictionaries the parser builds, by their ['type'] entry. *)
Inductive Question :=
| multiple_choice (question : string) (options : list string)
                  (correct_answer : string)
| true_false (question : string) (correct_answer : string)
| short_answer (question : string) (sample_answer : string)
| open_ended (question : string) (sample_answer : string).

(** Exceptions an indexing expression can raise. *)
Inductive exn := IndexError.

Inductive result (A : Type) :=
| Ok (a : A)
| Raise (e : exn).
Arguments Ok {A} a.
Arguments Raise {A} e.

(** Sequencing: an exception ends the computation. *)
#[global] Instance result_bind : MBind result := fun A B k r =>
  match r with Ok a => k a | Raise e => Raise e end.

(** [l[i]] for [i >= 0] *)
Definition index {A} (l : list A) (i : nat) : result A :=
  match l !! i with Some x => Ok x | None => Raise IndexError end.

(** [for block in question_blocks: ...]: [body] gives the questions
    one iteration appends to [questions]. *)
Fixpoint for_blocks (body : string -> result (list Question))
         (question_blocks : list string) (questions : list Question)
  : result (list Question) :=
  match question_blocks with
  | [] => Ok questions
  | block :: rest =>
      appended ← body block;
      for_blocks body rest (questions ++ appended)
  end.

(** *** Multiple choice *)

Definition OPTION_MARKERS : list string :=
  ["a)"; "b)"; "c)"; "d)"; "A)"; "B)"; "C)"; "D)"]%string.

(** [line.strip().startswith(('a)', ...))] *)
Definition is_option_line (line : string) : bool :=
  Py.startswith_any OPTION_MARKERS (Py.strip line).

(** [line.strip()[2:].strip()] *)
Definition option_text (line : string) : string :=
  Py.strip (Py.slice_from 2 (Py.strip line)).

(** ['*' in option or 'correct' in option.lower()] *)
Definition is_marked (option : string) : bool :=
  Py.contains "*" option || Py.contains "correct" (Py.lower option).

(** [option.replace('*', '').replace('(correct)', '').strip()] *)
Definition clean (option : string) : string :=
  Py.strip (Py.replace "(correct)" "" (Py.replace "*" "" option)).

Record mc_locals := McLocals {
  mc_options : list string;
  mc_correct_answer : option string
}.

(** One iteration of [for line in lines[1:]]. *)
Definition mc_line (st : mc_locals) (line : string) : mc_locals :=
  if is_option_line line then
    let option := option_text line in
    McLocals (mc_options st ++ [clean option])
             (if is_marked option then Some (clean option)
              else mc_correct_answer st)
  else st.

Definition mc_block (block : string) : result (list Question) :=
  if negb (Py.truthy (Py.strip block)) then Ok []
  else
    let lines := Py.split Py.NL (Py.strip block) in
    line0 ← index lines 0;
    let question := Py.strip line0 in
    let st := fold_left mc_line (drop 1 lines) (McLocals [] None) in
    match mc_correct_answer st with
    | Some correct_answer =>
        if Py.truthy question && Py.nonempty (mc_options st)
           && Py.truthy correct_answer
        then Ok [multiple_choice question (mc_options st) correct_answer]
        else Ok []
    | None => Ok []
    end.

(** *** True/False *)

(** ['Answer:' in line or 'Correct:' in line] *)
Definition has_answer_label (line : string) : bool :=
  Py.contains "Answer:" line || Py.contains "Correct:" line.

(** ['True' if 'true' in line.lower() else 'False'] *)
Definition answer_value (line : string) : string :=
  if Py.contains "true" (Py.lower line) then "True" else "False".

(** One iteration of [for line in lines]. *)
Definition tf_line (correct_answer : option string) (line : string)
  : option string :=
  if has_answer_label line then Some (answer_value line)
  else correct_answer.

Definition tf_block (block : string) : result (list Question) :=
  if negb (Py.truthy (Py.strip block)) then Ok []
  else
    let lines := Py.split Py.NL (Py.strip block) in
    line0 ← index lines 0;
    let question := Py.strip line0 in
    match fold_left tf_line lines None with
    | Some correct_answer =>
        if Py.truthy question && Py.truthy correct_answer
        then Ok [true_false question correct_answer]
        else Ok []
    | None => Ok []
    end.

(** *** Short answer and open ended *)

Definition sample_block (question_type : string) (block : string)
  : result (list Question) :=
  if negb (Py.truthy (Py.strip block)) then Ok []
  else
    let lines := Py.split Py.NL (Py.strip block) in
    line0 ← index lines 0;
    let question := Py.strip line0 in
    let sample_answer := Py.strip (Py.join Py.nl (drop 1 lines)) in
    if Py.truthy question
    then Ok [if String.eqb question_type "Open Ended"
             then open_ended question sample_answer
             else short_answer question sample_answer]
    else Ok [].

(** The loop body the branch for [question_type] runs, if any. *)
Definition block_body (question_type : string)
  : option (string -> result (list Question)) :=
  if String.eqb question_type "Multiple Choice" then Some mc_block
  else if String.eqb question_type "True/False" then Some tf_block
  else if String.eqb question_type "Short Answer"
          || String.eqb question_type "Open Ended"
  then Some (sample_block question_type)
  else None.

Definition parse_generated_questions (text question_type : string)
  : result (list Question) :=
  match block_body question_type with
  | Some body => for_blocks body (Py.re_split text) []
  | None => Ok []
  end.

(** [check_answer]: [Some b] for a boolean, [None] for [None]. *)
Definition check_answer (question : Question) (user_answer : string)
  : option bool :=
  match question with
  | multiple_choice _ _ correct_answer =>
      Some (String.eqb user_answer correct_answer)
  | true_false _ correct_answer =>
      Some (String.eqb (Py.lower user_answer) (Py.lower correct_answer))
  | short_answer _ _ | open_ended _ _ => None
  end.

End Questions.

(** ** The quiz session state (streamlit_app_QuestionGen.py) *)

Module Quiz.
Import Questions.

(** The entries of [st.session_state] the Questions page works on. *)
Record state := State {
  generated_questions : list Question;
  current_score : Z;
  total_questions : nat;
  answered_questions : gset nat
}.

(** The values set at start-up. *)
Definition initial : state := State [] 0 0 ∅.

(** [l[i] = x] for [i >= 0] *)
Definition set_item {A} (l : list A) (i : nat) (x : A) : result (list A) :=
  if decide (i < length l) then Ok (<[i:=x]> l) else Raise IndexError.

(** [l[i] = x] for any integer [i]: a negative index counts from the
    end. *)
Definition set_item_int {A} (l : list A) (i : Z) (x : A) : result (list A) :=
  if decide (0 ≤ i)%Z then set_item l (Z.to_nat i) x
  else if decide (- Z.of_nat (length l) ≤ i)%Z
       then set_item l (Z.to_nat (Z.of_nat (length l) + i)) x
       else Raise IndexError.

(** The "Generate Questions" handler, from the response of the model
    on: the questions are replaced and the counters reset. *)
Definition generate (text question_type : string) (s : state) : state :=
  match parse_generated_questions text question_type with
  | Ok questions => State questions 0 (length questions) ∅
  | Raise _ => s
  end.

(** [clear_questions] *)
Definition clear_questions (s : state) : state := State [] 0 0 ∅.

(** The statements of the regenerate handler of question [i] that
    follow the call of the service (lines 625-635), for the response
    [text]. An exception is caught and reported, the state staying as
    it is. The call itself (line 624) goes through the name [model]:
    these statements are reached only in a run where that name is
    bound, see [Page] below. *)
Definition regenerate (text question_type : string) (i : nat) (s : state)
  : state :=
  match parse_generated_questions text question_type with
  | Ok (new_question :: _) =>
      match set_item (generated_questions s) i new_question with
      | Ok questions =>
          if decide (i ∈ answered_questions s)
          then State questions
                     (Z.max 0 (current_score s - 1))
                     (total_questions s)
                     (answered_questions s ∖ {[i]})
          else State questions (current_score s) (total_questions s)
                     (answered_questions s)
      | Raise _ => s
      end
  | Ok [] | Raise _ => s
  end.

(** The function [regenerate_single_question], from the response of
    the model on, with the value it returns ([None] for no value). The
    topic only enters the prompt. *)
Definition regenerate_single_question
           (text question_type : string) (index : Z) (s : state)
  : state * option bool :=
  match parse_generated_questions text question_type with
  | Ok (new_question :: _) =>
      match set_item_int (generated_questions s) index new_question with
      | Ok questions =>
          (if decide ((0 ≤ index)%Z ∧ Z.to_nat index ∈ answered_questions s)
           then State questions (current_score s) (total_questions s)
                      (answered_questions s ∖ {[Z.to_nat index]})
           else State questions (current_score s) (total_questions s)
                      (answered_questions s),
           Some true)
      | Raise _ => (s, Some false)
      end
  | Ok [] => (s, None)
  | Raise _ => (s, Some false)
  end.

(** The body of the "Submit" handler of question [i]. *)
Definition submit_body (question : Question) (i : nat)
           (user_answer : string) (s : state) : state :=
  let is_correct := check_answer question user_answer in
  State (generated_questions s)
        (if bool_decide (is_correct = Some true)
         then if decide (i ∉ answered_questions s)
              then (current_score s + 1)%Z else current_score s
         else current_score s)
        (total_questions s)
        ({[i]} ∪ answered_questions s).

(** The "Submit" button of question [i]: it exists for the questions
    with a correct answer and is disabled once [i] is answered. *)
Definition submit (i : nat) (user_answer : string) (s : state) : state :=
  match generated_questions s !! i with
  | Some (multiple_choice _ _ _ as question)
  | Some (true_false _ _ as question) =>
      if decide (i ∈ answered_questions s) then s
      else submit_body question i user_answer s
  | Some (short_answer _ _) | Some (open_ended _ _) | None => s
  end.

(** The "Show Sample Answer" button of question [i], for the other
    questions. *)
Definition show_sample (i : nat) (s : state) : state :=
  match generated_questions s !! i with
  | Some (short_answer _ _) | Some (open_ended _ _) =>
      State (generated_questions s) (current_score s) (total_questions s)
            ({[i]} ∪ answered_questions s)
  | _ => s
  end.

(** What the user can do on the page. [Regenerate] carries the
    response the service would give. In [step] it stands for the
    statements after the call being reached, which is more than a run
    of the page does (see [Page.press]): the sequences of [step] include
    those of the page, a regenerate press being a [Regenerate] with the
    empty response. *)
Inductive event :=
| Generate (text question_type : string)
| Clear
| Regenerate (text question_type : string) (i : nat)
| Submit (i : nat) (user_answer : string)
| ShowSample (i : nat).

Definition step (s : state) (e : event) : state :=
  match e with
  | Generate text question_type => generate text question_type s
  | Clear => clear_questions s
  | Regenerate text question_type i => regenerate text question_type i s
  | Submit i user_answer => submit i user_answer s
  | ShowSample i => show_sample i s
  end.

Definition run (s : state) (events : list event) : state :=
  fold_left step events s.

(** [current_score ≤ |answered_questions| ≤ total_questions] *)
Definition score_invariant (s : state) : Prop :=
  (current_score s ≤ Z.of_nat (size (answered_questions s)))%Z
  ∧ size (answered_questions s) ≤ total_questions s.

(** What the handlers of the page keep besides: the answered indices
    are indices of questions, and [total_questions] is the number of
    questions. *)
Definition well_formed (s : state) : Prop :=
  (current_score s ≤ Z.of_nat (size (answered_questions s)))%Z
  ∧ (∀ i, i ∈ answered_questions s → i < length (generated_questions s))
  ∧ length (generated_questions s) = total_questions s.

End Quiz.

(** ** A run of the Questions page (streamlit_app_QuestionGen.py) *)

Module Page.
Import Questions Quiz.

(** The script is run from its first line for each press of a button,
    with that one button pressed and with no global name of an earlier
    run. The name [model] is assigned at one place, line 564, inside
    the "Generate Questions" handler. *)
Inductive binding := Unbound | Bound.

(** [model] after the "Generate Questions" handler (lines 536-581) of
    the run in which [e] is pressed. *)
Definition model_after_generate (e : event) : binding :=
  match e with
  | Generate _ _ => Bound
  | Clear | Regenerate _ _ _ | Submit _ _ | ShowSample _ => Unbound
  end.

(** The regenerate handler of question [i] (lines 604-637).
    [model.generate_content(...)] at line 624 raises [NameError] when
    [model] is unbound; the handler catches it at line 636 and reports
    it, and the statements of lines 625-635 are not run. *)
Definition regenerate_handler (model : binding)
           (text question_type : string) (i : nat) (s : state) : state :=
  match model with
  | Unbound => s
  | Bound => regenerate text question_type i s
  end.

(** The run of the script for one press. *)
Definition press (s : state) (e : event) : state :=
  match e with
  | Generate text question_type => generate text question_type s
  | Clear => clear_questions s
  | Regenerate text question_type i =>
      regenerate_handler (model_after_generate e) text question_type i s
  | Submit i user_answer => submit i user_answer s
  | ShowSample i => show_sample i s
  end.

Definition run (s : state) (presses : list event) : state :=
  fold_left press presses s.

End Page.

(** ** The lesson session state (streamlit_app.py) *)

Module Lessons.
Import Sections.

(** A lesson dictionary: its eight entries. *)
Record Lesson := MkLesson {
  timestamp : string;
  grade_level : string;
  subject_area : string;
  specific_topic : string;
  delivery_timeline : string;
  objectives : string;
  materials_budget : Z;
  content : string
}.

Definition set_content (lesson : Lesson) (text : string) : Lesson :=
  MkLesson (timestamp lesson) (grade_level lesson) (subject_area lesson)
           (specific_topic lesson) (delivery_timeline lesson)
           (objectives lesson) (materials_budget lesson) text.

(** Lesson dictionaries are objects: the session state holds
    references to them. *)
Abbreviation loc := nat.

Inductive view := edit | view_only.

Record state := State {
  store : gmap loc Lesson;
  current_lesson : option loc;
  generated_lessons : list loc;
  current_view : view
}.

Definition initial : state := State ∅ None [] edit.

(** A new dictionary object with the entries of [lesson]: a literal
    or [lesson.copy()]. The entries are strings and a number, which
    cannot be changed in place. *)
Definition alloc (lesson : Lesson) (h : gmap loc Lesson)
  : loc * gmap loc Lesson :=
  let l := fresh (dom h) in (l, <[l:=lesson]> h).

(** The "Generate Lesson Plan" handler, from the value returned by
    [generate_lesson_plan] on ([None] when the call failed); [inputs]
    holds the time and the values of the sidebar. *)
Definition generate (inputs : Lesson) (lesson_plan : option string)
           (s : state) : state :=
  if negb (Py.truthy (objectives inputs)) then s
  else if Py.truthy_opt lesson_plan then
    let new_lesson := set_content inputs (default EmptyString lesson_plan) in
    let '(l, h) := alloc new_lesson (store s) in
    let '(l_copy, h) := alloc new_lesson h in
    State h (Some l) (generated_lessons s ++ [l_copy]) (current_view s)
  else s.

(** [updated_content]: each section as its title, its stripped body
    and an empty line. *)
Definition serialize (sections : dict string) : string :=
  Py.join Py.nl
    (flat_map (fun entry => [fst entry; Py.strip (snd entry); EmptyString])
              sections).

(** [sections[section] = body] followed by
    [lesson_data['content'] = '\n'.join(updated_content)], on the
    dictionary at [l]. *)
Definition write_section (l : loc) (lesson : Lesson) (section body : string)
           (s : state) : state :=
  let sections := parse_lesson_sections (Some (content lesson)) in
  State (<[l := set_content lesson
                  (serialize (dict_set sections section body))]> (store s))
        (current_lesson s) (generated_lessons s) (current_view s).

(** The lesson shown in edit mode and the body of one of its
    sections, when there are such. *)
Definition edited (section : string) (s : state)
  : option (loc * Lesson * string) :=
  match current_view s, current_lesson s with
  | edit, Some l =>
      lesson ← store s !! l;
      body ← dict_get (parse_lesson_sections (Some (content lesson))) section;
      Some (l, lesson, body)
  | _, _ => None
  end.

(** The text area of [section] in [display_lesson_plan_edit] holds
    [edited_content]. *)
Definition edit_section (section edited_content : string) (s : state)
  : state :=
  match edited section s with
  | Some (l, lesson, body) =>
      if negb (String.eqb edited_content body)
      then write_section l lesson section edited_content s
      else s
  | None => s
  end.

(** The regenerate button of [section], from the value returned by
    [regenerate_section] on. *)
Definition regenerate (section : string) (new_content : option string)
           (s : state) : state :=
  match edited section s with
  | Some (l, lesson, _) =>
      if Py.truthy_opt new_content
      then write_section l lesson section
                         (default EmptyString new_content) s
      else s
  | None => s
  end.

(** Button [idx] of the history, listed latest first; the buttons are
    shown when there is a current lesson. *)
Definition select_history (idx : nat) (s : state) : state :=
  match current_lesson s, reverse (generated_lessons s) !! idx with
  | Some _, Some l_old =>
      match store s !! l_old with
      | Some lesson =>
          let '(l, h) := alloc lesson (store s) in
          State h (Some l) (generated_lessons s) (current_view s)
      | None => s
      end
  | _, _ => s
  end.

Definition set_view (v : view) (s : state) : state :=
  State (store s) (current_lesson s) (generated_lessons s) v.

Inductive event :=
| SetView (v : view)
| Generate (inputs : Lesson) (lesson_plan : option string)
| EditSection (section edited_content : string)
| Regenerate (section : string) (new_content : option string)
| SelectHistory (idx : nat).

Definition step (s : state) (e : event) : state :=
  match e with
  | SetView v => set_view v s
  | Generate inputs lesson_plan => generate inputs lesson_plan s
  | EditSection section edited_content =>
      edit_section section edited_content s
  | Regenerate section new_content => regenerate section new_content s
  | SelectHistory idx => select_history idx s
  end.

Definition run (s : state) (events : list event) : state :=
  fold_left step events s.

(** The lesson dictionary that entry [k] of the history refers to. *)
Definition history_entry (s : state) (k : nat) : option Lesson :=
  l ← generated_lessons s !! k; store s !! l.

(** The dictionary [current_lesson] refers to. *)
Definition current (s : state) : option Lesson :=
  l ← current_lesson s; store s !! l.

(** No aliasing: the entries of the history are objects of the store,
    and the current lesson is none of them. *)
Definition well_formed (s : state) : Prop :=
  (∀ l, l ∈ generated_lessons s → is_Some (store s !! l))
  ∧ (∀ l, current_lesson s = Some l → l ∉ generated_lessons s).

(** The entries of the history of [s] are entries of the history of
    [s'], at the same place and with the same fields. *)
Definition history_kept (s s' : state) : Prop :=
  ∀ k lesson, history_entry s k = Some lesson →
              history_entry s' k = Some lesson.

End Lessons.

(** ** Terms of the specification *)

Module Spec.
Import Questions Sections.

(** The lines of a block: [block.strip().split('\n')]. *)
Definition block_lines (block : string) : list string :=
  Py.split Py.NL (Py.strip block).

(** The question line of a block, stripped. *)
Definition block_question (block : string) : string :=
  Py.strip (default EmptyString (head (block_lines block))).

(** The option texts scanned in a block, in scan order, with their
    annotations: the payload lines that start with an option marker,
    after the marker. *)
Definition scanned_options (block : string) : list string :=
  map option_text (List.filter is_option_line (drop 1 (block_lines block))).

(** The block lacks a question text, an option or a marked option. *)
Definition lacks_required (block : string) : Prop :=
  block_question block = EmptyString
  ∨ scanned_options block = []
  ∨ List.filter is_marked (scanned_options block) = [].

(** What a multiple-choice block adds to the output: the last marked
    option decides. *)
Definition mc_emits (block : string) : list Question :=
  match last (List.filter is_marked (scanned_options block)) with
  | Some option =>
      if Py.truthy (block_question block)
         && Py.nonempty (scanned_options block)
         && Py.truthy (clean option)
      then [multiple_choice (block_question block)
                            (map clean (scanned_options block))
                            (clean option)]
      else []
  | None => []
  end.

(** What a true/false block adds to the output: the last line with
    an answer label decides, among all the lines of the block. *)
Definition tf_emits (block : string) : list Question :=
  match last (List.filter has_answer_label (block_lines block)) with
  | Some line => [true_false (block_question block) (answer_value line)]
  | None => []
  end.

(** What a short-answer or open-ended block adds to the output. *)
Definition sample_emits (question_type block : string) : list Question :=
  if Py.truthy (Py.strip block) then
    let sample_answer :=
      Py.strip (Py.join Py.nl (drop 1 (block_lines block))) in
    [if String.eqb question_type "Open Ended"
     then open_ended (block_question block) sample_answer
     else short_answer (block_question block) sample_answer]
  else [].

(** The payload lines of a block: those after the question line. *)
Definition payload_lines (block : string) : list string :=
  drop 1 (block_lines block).

(** The longest prefix of [l] whose elements satisfy [p]. *)
Fixpoint take_while {A} (p : A -> bool) (l : list A) : list A :=
  match l with
  | x :: l' => if p x then x :: take_while p l' else []
  | [] => []
  end.

(** The content accumulated from the lines that follow a header: the
    stripped non-empty lines up to the next header line. *)
Definition body_lines (following : list string) : list string :=
  map Py.strip
      (List.filter (fun line => Py.truthy (Py.strip line))
                   (take_while (fun line => negb (is_header line)) following)).

(** The header lines of the input in order of occurrence, each as its
    header text with the content accumulated after it. *)
Fixpoint occurrences (lines : list string) : list (string * list string) :=
  match lines with
  | [] => []
  | line :: following =>
      if is_header line
      then (Py.strip line, body_lines following) :: occurrences following
      else occurrences following
  end.

(** The occurrences that are flushed into the mapping: all of them,
    but for a last one with no content. *)
Fixpoint flushed (occs : list (string * list string))
  : list (string * list string) :=
  match occs with
  | [] => []
  | [(header, body)] => if Py.nonempty body then [(header, body)] else []
  | occ :: occs' => occ :: flushed occs'
  end.

(** The body stored for accumulated content. *)
Definition body_text (body : list string) : string :=
  Py.strip (Py.join Py.nl body).

(** The flushed occurrences of a text. *)
Definition flushed_of (text : string) : list (string * list string) :=
  flushed (occurrences (Py.split Py.NL text)).

(** The content of the last element of [occs] under [header]. *)
Definition last_body (header : string) (occs : list (string * list string))
  : option (list string) :=
  snd <$> last (List.filter (fun occ => String.eqb (fst occ) header) occs).

(** [seen] with [k] added last, if it is not there yet. *)
Definition add_key (seen : list string) (k : string) : list string :=
  if decide (k ∈ seen) then seen else seen ++ [k].

(** The elements of [l] in order of first occurrence. *)
Definition first_occurrences (l : list string) : list string :=
  fold_left add_key l [].

(** The mapping [d] after the given occurrences are stored in turn. *)
Definition store_all (d : dict string) (occs : list (string * list string))
  : dict string :=
  fold_left (fun d occ => dict_set d (fst occ) (body_text (snd occ))) occs d.

(** The number of entries of a mapping under a key. *)
Definition entries_under (header : string) (d : dict string) : nat :=
  length (List.filter (fun entry => String.eqb (fst entry) header) d).

End Spec.

(** ** Inputs of the examples *)

Module Examples.

(** The text made of the given lines, separated by ["\n"]. *)
Definition lines (l : list string) : string := Py.join Py.nl l.

Definition capital_block : string :=
  lines ["Capital of UK?"; "a) Paris"; "b) *London"; "c) Rome"].

(** Two numbered blocks; the first has no marked option. *)
Definition two_blocks : string :=
  lines ["Question 1: Largest planet?"; "a) Mars"; "b) Jupiter";
         "Question 2: Capital of UK?"; "a) Paris"; "b) *London"].

(** A block with two marked options. *)
Definition twice_marked : string :=
  lines ["Capital of UK?"; "a) *Paris"; "b) London (correct)"; "c) Rome"].

(** A true/false block of one line: the answer follows the question. *)
Definition one_line_block : string := "The sky is blue. Answer: True".

(** A quiz of one true/false question, and a replacement. *)
Definition one_question : string := lines ["Sky is blue?"; "Answer: True"].
Definition new_question_text : string :=
  lines ["Water is wet?"; "Answer: True"].

(** A quiz of two true/false questions. *)
Definition two_questions : string :=
  lines ["Sky is blue?"; "Answer: True"; "2. Grass is red?"; "Answer: False"].

(** The values of the sidebar for a lesson. *)
Definition biology : Lessons.Lesson :=
  Lessons.MkLesson "2024-01-01 09:00:00" "6-8" "Science" "Biology"
                   "Asynchronous" "Name the parts of a cell" 50 "".

Definition two_sections : string :=
  lines ["Overview:"; "foo"; "Lesson Procedure:"; "bar"].

(** The header "Overview:" comes back after another section. *)
Definition repeated_header : string :=
  lines ["Overview:"; "foo"; "Lesson Procedure:"; "bar"; "Overview:"; "baz"].

(** The header "Overview:" comes back as the last line. *)
Definition repeated_header_at_end : string :=
  lines ["Overview:"; "foo"; "Overview:"].

End Examples.

(** ** Questions of the lesson sections (streamlit_app_QuestionGen.py) *)

Module SectionQuestions.
Import Questions.

(** [generate_single_question], from the response of the model on:
    [questions[0] if questions else None]. The prompt and the section
    title only enter the prompt. *)
Definition generate_single_question (text question_type : string)
  : result (option Question) :=
  questions ← parse_generated_questions text question_type;
  Ok (head questions).

(** The question types of the select box of a lesson section. *)
Definition QUESTION_TYPES : list string :=
  ["Multiple Choice"; "True/False"; "Short Answer"; "Open Ended"]%string.

(** An entry of [section_questions]: the dictionary with the keys
    ['question'] and ['type']. *)
Record entry := Entry {
  entry_question : option Question;
  entry_type : string
}.

(** The "Generate Question" handler of the section [section_idx] in
    [render_lesson_plan], from the response of the model on, for a
    prompt that is not empty; an exception is caught and reported. The
    key [section_<idx>] is modelled by [idx]. *)
Definition add_question (section_idx : nat) (text question_type : string)
           (section_questions : gmap nat (list entry))
  : gmap nat (list entry) :=
  match generate_single_question text question_type with
  | Ok generated_question =>
      <[section_idx :=
          default [] (section_questions !! section_idx)
          ++ [Entry generated_question question_type]]> section_questions
  | Raise _ => section_questions
  end.

(** What [display_question] puts on the page. *)
Inductive widget :=
| Write (text : string)
| Radio (options : list string)
| TextArea
| Success (message : string)
| Error (message : string)
| Info (message : string).

(** The exceptions of a subscript [question[key]]. *)
Inductive display_exn :=
| TypeError
| KeyError (key : string).

Inductive outcome (A : Type) :=
| Shown (a : A)
| Raised (e : display_exn).
Arguments Shown {A} a.
Arguments Raised {A} e.

#[global] Instance outcome_bind : MBind outcome := fun A B k r =>
  match r with Shown a => k a | Raised e => Raised e end.

(** [question['question']]; [question] may be [None]. *)
Definition get_question (question : option Question) : outcome string :=
  match question with
  | None => Raised TypeError
  | Some (multiple_choice t _ _) | Some (true_false t _)
  | Some (short_answer t _) | Some (open_ended t _) => Shown t
  end.

(** [question['options']] *)
Definition get_options (question : option Question) : outcome (list string) :=
  match question with
  | None => Raised TypeError
  | Some (multiple_choice _ options _) => Shown options
  | Some _ => Raised (KeyError "options")
  end.

(** [question['correct_answer']] *)
Definition get_correct_answer (question : option Question) : outcome string :=
  match question with
  | None => Raised TypeError
  | Some (multiple_choice _ _ c) | Some (true_false _ c) => Shown c
  | Some _ => Raised (KeyError "correct_answer")
  end.

(** [question['sample_answer']] *)
Definition get_sample_answer (question : option Question) : outcome string :=
  match question with
  | None => Raised TypeError
  | Some (short_answer _ a) | Some (open_ended _ a) => Shown a
  | Some _ => Raised (KeyError "sample_answer")
  end.

(** The message of a wrong answer. *)
Definition incorrect (correct_answer : string) : widget :=
  Error ("Incorrect. The correct answer is: " +:+ correct_answer).

(** [display_question]: [answer] is the value of the radio, [pressed]
    tells whether the button of the question was pressed. *)
Definition display_question (question : option Question)
           (question_type answer : string) (pressed : bool)
  : outcome (list widget) :=
  text ← get_question question;
  if String.eqb question_type "multiple_choice" then
    options ← get_options question;
    if pressed then
      correct_answer ← get_correct_answer question;
      Shown [Write text; Radio options;
             if String.eqb answer correct_answer then Success "Correct!"
             else incorrect correct_answer]
    else Shown [Write text; Radio options]
  else if String.eqb question_type "true_false" then
    if pressed then
      correct_answer ← get_correct_answer question;
      Shown [Write text; Radio ["True"; "False"]%string;
             if String.eqb (Py.lower answer) (Py.lower correct_answer)
             then Success "Correct!" else incorrect correct_answer]
    else Shown [Write text; Radio ["True"; "False"]%string]
  else
    if pressed then
      sample_answer ← get_sample_answer question;
      Shown [Write text; TextArea;
             Info ("Sample Answer:" +:+ Py.nl +:+ sample_answer)]
    else Shown [Write text; TextArea].

End SectionQuestions.

(** ** Further terms *)

Module Terms.
Import Questions Sections Spec.

(** The answers the radio of a question on the Questions page offers. *)
Definition radio_options (q : Question) : list string :=
  match q with
  | multiple_choice _ options _ => options
  | true_false _ _ => ["True"; "False"]%string
  | short_answer _ _ | open_ended _ _ => []
  end.

(** A block that is not blank. *)
Definition nonblank (block : string) : bool := Py.truthy (Py.strip block).

(** The question a short-answer or open-ended block gives. *)
Definition sample_question (question_type block : string) : Question :=
  let sample_answer := Py.strip (Py.join Py.nl (payload_lines block)) in
  if String.eqb question_type "Open Ended"
  then open_ended (block_question block) sample_answer
  else short_answer (block_question block) sample_answer.

(** The lines a section body contributes when it is read back: its
    lines that are not blank, stripped. *)
Definition content_lines (body : string) : list string :=
  map Py.strip
      (List.filter (fun line => Py.truthy (Py.strip line))
                   (Py.split Py.NL (Py.strip body))).

(** The body read back for a body written. *)
Definition normalized (body : string) : string :=
  body_text (content_lines body).

(** An entry of a section mapping that is read back as one section: its
    title is a header line without surrounding white space, and its
    body has a line that is not blank and no header line. *)
Definition section_ok (entry : string * string) : Prop :=
  is_header (fst entry) = true
  ∧ Py.strip (fst entry) = fst entry
  ∧ Py.split Py.NL (fst entry) = [fst entry]
  ∧ Forall (fun line => is_header line = false)
           (Py.split Py.NL (Py.strip (snd entry)))
  ∧ content_lines (snd entry) ≠ [].

(** The mapping with every body as it is read back. *)
Definition read_back (d : dict string) : dict string :=
  map (fun entry => (fst entry, normalized (snd entry))) d.

(** Question [i] of [questions] is one with a "Submit" button. *)
Definition scorable_at (questions : list Question) (i : nat) : bool :=
  match questions !! i with
  | Some (multiple_choice _ _ _) | Some (true_false _ _) => true
  | _ => false
  end.

(** The answered questions that have a "Submit" button. *)
Definition answered_scorable (s : Quiz.state) : gset nat :=
  filter (fun i => scorable_at (Quiz.generated_questions s) i = true)
         (Quiz.answered_questions s).

(** The score is at most the number of answered questions that have a
    "Submit" button. *)
Definition scorable_bound (s : Quiz.state) : Prop :=
  (Quiz.current_score s ≤ Z.of_nat (size (answered_scorable s)))%Z.

End Terms.

(** ** Inputs of further examples *)

Module MoreExamples.
Import Examples.

(** A multiple-choice response with no marked option. *)
Definition unmarked_block : string := lines ["Largest planet?"; "a) Mars"].

(** The quiz state after two true/false questions are generated. *)
Definition two_loaded : Quiz.state :=
  Quiz.run Quiz.initial [Quiz.Generate two_questions "True/False"].

(** Two lessons are generated, the first one is edited in between. *)
Definition two_lessons : list Lessons.event :=
  [Lessons.Generate biology (Some two_sections);
   Lessons.EditSection "Overview:" "changed";
   Lessons.Generate biology (Some repeated_header)].

(** The lesson state after a lesson with two sections is generated. *)
Definition one_lesson : Lessons.state :=
  Lessons.run Lessons.initial [Lessons.Generate biology (Some two_sections)].

(** A section mapping with a body in need of stripping. *)
Definition edited_sections : dict string :=
  [("Overview:", lines ["  first line "; ""; "second line"; ""]);
   ("Lesson Procedure:", "bar")]%string.

End MoreExamples.

(** * Properties *)

(** ** Strings *)

Module PyFacts.
Import Py.

Lemma split_cons sep s : ∃ piece pieces, split sep s = piece :: pieces.
Proof.
  induction s as [|c s [piece [pieces IH]]]; simpl; [by eauto|].
  destruct (Ascii.eqb c sep); [by eauto|]. rewrite IH. by eauto.
Qed.

Lemma lstrip_head s c t : lstrip s = String c t → isspace c = false.
Proof.
  induction s as [|a s IH]; simpl; [done|].
  destruct (isspace a) eqn:Ha; [done|]. by intros [= <- _].
Qed.

Lemma rstrip_nonspace c s :
  isspace c = false → ∃ t, rstrip (String c s) = String c t.
Proof.
  intros Hc. simpl. rewrite Hc. destruct (rstrip s); by eauto.
Qed.

Lemma strip_head s c t : strip s = String c t → isspace c = false.
Proof.
  unfold strip. destruct (lstrip s) as [|a u] eqn:Hl; [done|].
  pose proof (lstrip_head _ _ _ Hl) as Ha.
  destruct (rstrip_nonspace a u Ha) as [t' ->]. by intros [= <- _].
Qed.

Lemma strip_nonspace c s : isspace c = false → truthy (strip (String c s)) = true.
Proof.
  intros Hc. unfold strip. simpl lstrip. rewrite Hc.
  by destruct (rstrip_nonspace c s Hc) as [t ->].
Qed.

Lemma strip_cons_truthy c s :
  truthy (strip s) = true → truthy (strip (String c s)) = true.
Proof.
  intros Hs. destruct (isspace c) eqn:Hc.
  - unfold strip in *. simpl lstrip. by rewrite Hc.
  - by apply strip_nonspace.
Qed.

(** The first line of a stripped text that is not empty is not blank. *)
Lemma first_line_truthy s :
  truthy (strip s) = true →
  ∃ line0 rest, split NL (strip s) = line0 :: rest
                ∧ truthy (strip line0) = true.
Proof.
  destruct (strip s) as [|c t] eqn:Hs; [done|]. intros _.
  pose proof (strip_head _ _ _ Hs) as Hc. simpl.
  destruct (Ascii.eqb c NL) eqn:Hnl.
  { apply Ascii.eqb_eq in Hnl. subst c. done. }
  destruct (split_cons NL t) as [piece [pieces ->]].
  eexists _, _. split; [done|]. by apply strip_nonspace.
Qed.

(** A text that contains a needle starting with a character that is
    not white space is not blank. *)
Lemma contains_truthy c needle hay :
  isspace c = false → contains (String c needle) hay = true →
  truthy (strip hay) = true.
Proof.
  intros Hc. induction hay as [|a hay IH]; simpl; [done|].
  destruct (ascii_dec c a) as [<-|Hne]; simpl.
  - destruct (String.prefix needle hay); simpl.
    + intros _. by apply strip_nonspace.
    + intros H. by apply strip_cons_truthy, IH.
  - intros H. by apply strip_cons_truthy, IH.
Qed.

Lemma isspace_not_digit c : isspace c = true → isdigit c = false.
Proof. by destruct c as [[] [] [] [] [] [] [] []]. Qed.

Lemma strip_blank s : strip s = EmptyString → lstrip s = EmptyString.
Proof.
  unfold strip. destruct (lstrip s) as [|c t] eqn:Hl; [done|].
  destruct (rstrip_nonspace c t (lstrip_head _ _ _ Hl)) as [u ->]. done.
Qed.

Lemma lstrip_blank_cons c s :
  lstrip (String c s) = EmptyString →
  isspace c = true ∧ lstrip s = EmptyString.
Proof. simpl. by destruct (isspace c). Qed.

Lemma count_digits_blank s : lstrip s = EmptyString → count_digits s = 0.
Proof.
  destruct s as [|c s]; [done|]. intros [Hc _]%lstrip_blank_cons.
  simpl. by rewrite (isspace_not_digit c Hc).
Qed.

(** No marker starts at a white-space character followed by white
    space only. *)
Lemma match_marker_blank s : lstrip s = EmptyString → match_marker s = None.
Proof.
  destruct s as [|c s]; [done|]. intros [Hc Hs]%lstrip_blank_cons.
  unfold match_marker, digits_then. rewrite (count_digits_blank s Hs).
  cbn [Nat.ltb Nat.leb andb String.prefix].
  destruct (ascii_dec "Q" c) as [<-|_]; [done|].
  by destruct (Ascii.eqb c NL).
Qed.

Lemma re_split_go_blank s cur :
  lstrip s = EmptyString →
  re_split_go 0 cur s
  = [String.string_of_list_ascii (rev cur ++ String.list_ascii_of_string s)].
Proof.
  revert cur. induction s as [|c s IH]; intros cur Hs.
  { simpl. by rewrite app_nil_r. }
  cbn [re_split_go]. rewrite (match_marker_blank _ Hs).
  apply lstrip_blank_cons in Hs as [_ Hs]. rewrite (IH _ Hs).
  simpl. by rewrite <- app_assoc.
Qed.

(** A blank text is one block. *)
Lemma re_split_blank text : strip text = EmptyString → re_split text = [text].
Proof.
  intros H%strip_blank. unfold re_split. rewrite re_split_go_blank by done.
  simpl. by rewrite String.string_of_list_ascii_of_string.
Qed.

End PyFacts.

(** ** The question parser *)

Module QuestionFacts.
Import Py Questions Spec PyFacts.

Lemma mc_scan lines options correct_answer :
  fold_left mc_line lines (McLocals options correct_answer) =
  let scanned := map option_text (List.filter is_option_line lines) in
  McLocals (options ++ map clean scanned)
           (match last (List.filter is_marked scanned) with
            | Some option => Some (clean option)
            | None => correct_answer
            end).
Proof.
  revert options correct_answer.
  induction lines as [|line lines IH]; intros options correct_answer; simpl.
  { by rewrite app_nil_r. }
  unfold mc_line at 2. destruct (is_option_line line); simpl; [|apply IH].
  rewrite IH. f_equal; [by rewrite <- app_assoc|].
  destruct (is_marked (option_text line)); [|done].
  rewrite last_cons. by destruct (last _).
Qed.

Lemma tf_scan lines correct_answer :
  fold_left tf_line lines correct_answer =
  match last (List.filter has_answer_label lines) with
  | Some line => Some (answer_value line)
  | None => correct_answer
  end.
Proof.
  revert correct_answer.
  induction lines as [|line lines IH]; intros correct_answer; simpl; [done|].
  rewrite IH. unfold tf_line.
  destruct (has_answer_label line); [|done].
  rewrite last_cons. by destruct (last _).
Qed.

Lemma block_lines_blank block :
  truthy (strip block) = false → block_lines block = [EmptyString].
Proof. unfold block_lines. by destruct (strip block). Qed.

Lemma nonempty_map {A B} (f : A → B) l : nonempty (map f l) = nonempty l.
Proof. by destruct l. Qed.

Lemma mc_block_emits block : mc_block block = Ok (mc_emits block).
Proof.
  unfold mc_block, mc_emits, scanned_options, block_question.
  destruct (truthy (strip block)) eqn:Hb; simpl.
  - destruct (first_line_truthy _ Hb) as (line0 & rest & Hl & Hq).
    unfold block_lines. rewrite Hl. simpl. rewrite drop_0, mc_scan. simpl.
    rewrite Hq, nonempty_map. destruct (last _); [by case_match|done].
  - by rewrite block_lines_blank.
Qed.

Lemma answer_value_truthy line : truthy (answer_value line) = true.
Proof. unfold answer_value. by destruct (contains _ _). Qed.

Lemma tf_block_emits block : tf_block block = Ok (tf_emits block).
Proof.
  unfold tf_block, tf_emits, block_question.
  destruct (truthy (strip block)) eqn:Hb; simpl.
  - destruct (first_line_truthy _ Hb) as (line0 & rest & Hl & Hq).
    unfold block_lines. rewrite Hl. cbn [index lookup list_lookup mbind result_bind head default].
    rewrite tf_scan. destruct (last _) as [line|]; [|done].
    by rewrite Hq, answer_value_truthy.
  - by rewrite block_lines_blank.
Qed.

Lemma sample_block_emits question_type block :
  sample_block question_type block = Ok (sample_emits question_type block).
Proof.
  unfold sample_block, sample_emits, block_question.
  destruct (truthy (strip block)) eqn:Hb; simpl; [|done].
  destruct (first_line_truthy _ Hb) as (line0 & rest & Hl & Hq).
  unfold block_lines. rewrite Hl. simpl. by rewrite Hq.
Qed.

(** The loop adds to [questions] what each block emits, in order. *)
Lemma for_blocks_emits body emits blocks questions :
  (∀ block, body block = Ok (emits block)) →
  for_blocks body blocks questions
  = Ok (questions ++ concat (map emits blocks)).
Proof.
  intros Hbody. revert questions.
  induction blocks as [|block blocks IH]; intros questions; simpl.
  { by rewrite app_nil_r. }
  rewrite Hbody. simpl. rewrite IH. by rewrite <- app_assoc.
Qed.

(** Every loop body returns, whatever the block. *)
Lemma block_body_returns question_type body :
  block_body question_type = Some body →
  ∃ emits, ∀ block, body block = Ok (emits block).
Proof.
  unfold block_body. intros H.
  repeat case_match; simplify_eq; eexists; intros block.
  - apply mc_block_emits.
  - apply tf_block_emits.
  - apply sample_block_emits.
Qed.

Lemma parse_returns text question_type :
  ∃ questions, parse_generated_questions text question_type = Ok questions.
Proof.
  unfold parse_generated_questions.
  destruct (block_body question_type) as [body|] eqn:Hb; [|by eauto].
  destruct (block_body_returns _ _ Hb) as [emits Hemits].
  rewrite (for_blocks_emits _ emits) by done. by eauto.
Qed.

End QuestionFacts.

Module ParserClaims.
Import Py Questions Spec PyFacts QuestionFacts Examples.

(** C3. In multiple-choice mode, the block with question text
    "Capital of UK?" and the option lines "a) Paris", "b) *London",
    "c) Rome" gives exactly one question, with options "Paris",
    "London", "Rome" and correct answer "London"; so it does behind a
    "Question 1:" marker or a "1." marker at the start of a line. *)
Theorem C3_capital_of_uk :
  let parsed :=
    Ok [multiple_choice "Capital of UK?" ["Paris"; "London"; "Rome"]
                        "London"] in
  parse_generated_questions capital_block "Multiple Choice" = parsed
  ∧ parse_generated_questions ("Question 1: " +:+ capital_block)
                              "Multiple Choice" = parsed
  ∧ parse_generated_questions (nl +:+ "1. " +:+ capital_block)
                              "Multiple Choice" = parsed.
Proof. by vm_compute. Qed.

Lemma lacking_block_emits_nothing block :
  lacks_required block → mc_emits block = [].
Proof.
  unfold mc_emits. intros [Hq|[Ho|Hm]].
  - rewrite Hq. by destruct (last _).
  - by rewrite Ho.
  - by rewrite Hm.
Qed.

(** C4. In multiple-choice mode a block that lacks a non-empty
    question text, an option or a marked option contributes no
    question: the parser returns, without an exception, the questions
    of the other blocks. *)
Theorem C4_malformed_block_dropped text before block after :
  re_split text = before ++ block :: after →
  lacks_required block →
  mc_block block = Ok []
  ∧ ∃ questions,
      parse_generated_questions text "Multiple Choice" = Ok questions
      ∧ for_blocks mc_block (before ++ after) [] = Ok questions.
Proof.
  intros Hsplit Hlacks.
  pose proof (lacking_block_emits_nothing _ Hlacks) as Hnone.
  split; [by rewrite mc_block_emits, Hnone|].
  unfold parse_generated_questions. cbn [block_body String.eqb Ascii.eqb Bool.eqb].
  rewrite Hsplit, !(for_blocks_emits _ mc_emits) by apply mc_block_emits.
  eexists. split; [done|].
  by rewrite !map_app, !concat_app, map_cons, concat_cons, Hnone.
Qed.

Lemma C4_witness :
  mc_block (lines [" Largest planet?"; "a) Mars"; "b) Jupiter"; ""]) = Ok []
  ∧ ∃ questions,
      parse_generated_questions two_blocks "Multiple Choice" = Ok questions
      ∧ for_blocks mc_block
          ([""] ++ [lines [" Capital of UK?"; "a) Paris"; "b) *London"]]) []
        = Ok questions.
Proof.
  apply (C4_malformed_block_dropped two_blocks [""]).
  - vm_compute. reflexivity.
  - right. right. vm_compute. reflexivity.
Defined.

(** C5, as the code has it. A true/false block is scanned in all its
    lines, the question line included, for the lines that contain
    "Answer:" or "Correct:"; if there is one, the block gives a
    question whose correct answer is "True" when the last such line
    contains "true" in any case and "False" otherwise; if there is
    none, the block gives no question. The parser returns what the
    blocks of the text give, in order. *)
Theorem C5_true_false_block :
  (∀ block,
      tf_block block
      = Ok (match last (List.filter has_answer_label (block_lines block)) with
            | Some line =>
                [true_false (block_question block)
                            (if contains "true" (lower line) then "True"
                             else "False")]
            | None => []
            end))
  ∧ (∀ text,
       parse_generated_questions text "True/False"
       = Ok (concat (map tf_emits (re_split text)))).
Proof.
  split; [apply tf_block_emits|].
  intros text. unfold parse_generated_questions.
  cbn [block_body String.eqb Ascii.eqb Bool.eqb].
  by rewrite (for_blocks_emits _ tf_emits) by apply tf_block_emits.
Qed.

(** C5, as stated, fails: no payload line of the block holds an
    answer label, and the block gives a question all the same. *)
Lemma C5_counterexample :
  List.filter has_answer_label (payload_lines one_line_block) = []
  ∧ tf_block one_line_block
    = Ok [true_false "The sky is blue. Answer: True" "True"].
Proof. by vm_compute. Qed.

(** C9. The correct answer of the question a multiple-choice block
    gives is the annotation-stripped text of the last marked option in
    scan order. *)
Theorem C9_last_marked_option_wins block question options correct_answer :
  mc_block block = Ok [multiple_choice question options correct_answer] →
  ∃ option,
    last (List.filter is_marked (scanned_options block)) = Some option
    ∧ correct_answer = clean option.
Proof.
  rewrite mc_block_emits. unfold mc_emits. intros [= H].
  destruct (last _) as [option|]; [|done].
  exists option. split; [done|]. case_match; by simplify_eq.
Qed.

Lemma C9_witness :
  ∃ option,
    last (List.filter is_marked (scanned_options twice_marked))
    = Some option
    ∧ "London" = clean option.
Proof.
  apply (C9_last_marked_option_wins
           twice_marked "Capital of UK?" ["Paris"; "London"; "Rome"]).
  vm_compute. reflexivity.
Defined.

Lemma parse_blank text question_type :
  strip text = EmptyString →
  parse_generated_questions text question_type = Ok [].
Proof.
  intros Hblank. unfold parse_generated_questions, block_body.
  rewrite (re_split_blank _ Hblank).
  repeat case_match; simplify_eq; [| | |done];
    unfold for_blocks, mc_block, tf_block, sample_block;
    by rewrite Hblank.
Qed.

Lemma parse_all_dropped text question_type body :
  block_body question_type = Some body →
  (∀ block, block ∈ re_split text → body block = Ok []) →
  parse_generated_questions text question_type = Ok [].
Proof.
  unfold parse_generated_questions. intros -> Hall.
  induction (re_split text) as [|block blocks IH]; simpl; [done|].
  rewrite Hall by left. simpl. apply IH. intros b Hb. apply Hall. by right.
Qed.

(** C7. Both parsers return for every input. The question parser
    returns, without an exception, a list for every text and question
    type; the list is empty for the empty text, for a blank text, for a
    question type it does not know and for a text none of whose blocks
    gives a question. The section parser is a function of an absent or
    present text with no step that can raise, and gives the empty
    mapping for an absent and for an empty text. *)
Theorem C7_parsers_never_raise :
  (∀ text question_type,
      ∃ questions, parse_generated_questions text question_type = Ok questions)
  ∧ (∀ question_type,
       parse_generated_questions EmptyString question_type = Ok [])
  ∧ (∀ text question_type,
       strip text = EmptyString →
       parse_generated_questions text question_type = Ok [])
  ∧ (∀ text question_type,
       block_body question_type = None →
       parse_generated_questions text question_type = Ok [])
  ∧ (∀ text question_type body,
       block_body question_type = Some body →
       (∀ block, block ∈ re_split text → body block = Ok []) →
       parse_generated_questions text question_type = Ok [])
  ∧ Sections.parse_lesson_sections None = []
  ∧ Sections.parse_lesson_sections (Some EmptyString) = [].
Proof.
  split_and!; try done.
  - apply parse_returns.
  - intros question_type. by apply parse_blank.
  - apply parse_blank.
  - intros text question_type H. unfold parse_generated_questions.
    by rewrite H.
  - apply parse_all_dropped.
Qed.

End ParserClaims.

(** ** The section parser *)

Module DictFacts.
Import Spec.

Section Dict.
Context {V : Type}.
Implicit Types (d : dict V) (k : string) (v : V).

Lemma dict_keys_set d k v :
  dict_keys (dict_set d k v) = add_key (dict_keys d) k.
Proof.
  unfold add_key, dict_keys. induction d as [|[k' v'] d IH]; [done|].
  cbn [dict_set map fst].
  destruct (String.eqb_spec k' k) as [->|Hne]; cbn [map fst].
  - by rewrite decide_True by left.
  - rewrite IH. destruct (decide (k ∈ map fst d)) as [Hin|Hnin].
    + by rewrite decide_True by (by right).
    + rewrite decide_False; [done|].
      intros [?|?]%elem_of_cons; by simplify_eq.
Qed.

Lemma dict_get_set d k v k' :
  dict_get (dict_set d k v) k'
  = if decide (k = k') then Some v else dict_get d k'.
Proof.
  induction d as [|[k0 v0] d IH]; simpl.
  - destruct (String.eqb_spec k k'); by case_decide.
  - destruct (String.eqb_spec k0 k) as [->|Hne]; simpl.
    + destruct (String.eqb_spec k k'); by case_decide.
    + rewrite IH. destruct (String.eqb_spec k0 k'); [|done].
      case_decide; by simplify_eq.
Qed.

Lemma add_key_NoDup (seen : list string) k :
  NoDup seen → NoDup (add_key seen k).
Proof.
  unfold add_key. intros Hseen. case_decide; [done|].
  apply NoDup_app. split_and!; [done| |apply NoDup_singleton].
  intros x Hx ->%list_elem_of_singleton. done.
Qed.

Lemma dict_get_is_Some d k : is_Some (dict_get d k) ↔ k ∈ dict_keys d.
Proof.
  unfold dict_keys. induction d as [|[k' v'] d IH]; simpl.
  { split; [by intros [? ?]|by intros ?%not_elem_of_nil]. }
  destruct (String.eqb_spec k' k) as [->|Hne].
  - split; [intros _; by left|by eauto].
  - rewrite IH. split; [by right|].
    intros [?|?]%elem_of_cons; by simplify_eq.
Qed.

Lemma entries_under_absent (d : dict string) k :
  k ∉ dict_keys d → entries_under k d = 0.
Proof.
  unfold entries_under, dict_keys.
  induction d as [|[k' v'] d IH]; simpl; [done|].
  intros Hnin. destruct (String.eqb_spec k' k) as [->|Hne].
  - exfalso. apply Hnin. by left.
  - apply IH. intros ?. apply Hnin. by right.
Qed.

Lemma entries_under_NoDup (d : dict string) k :
  NoDup (dict_keys d) → k ∈ dict_keys d → entries_under k d = 1.
Proof.
  unfold entries_under, dict_keys.
  induction d as [|[k' v'] d IH]; simpl.
  { by intros _ ?%not_elem_of_nil. }
  intros [Hnin Hd]%NoDup_cons Hin.
  destruct (String.eqb_spec k' k) as [->|Hne]; simpl.
  - f_equal. by apply entries_under_absent.
  - apply IH; [done|]. apply elem_of_cons in Hin as [?|?]; by simplify_eq.
Qed.

End Dict.

Lemma store_all_keys d occs :
  dict_keys (store_all d occs) = fold_left add_key (map fst occs) (dict_keys d).
Proof.
  revert d. induction occs as [|occ occs IH]; intros d; simpl; [done|].
  unfold store_all in *. simpl. by rewrite IH, dict_keys_set.
Qed.

Lemma store_all_NoDup d occs :
  NoDup (dict_keys d) → NoDup (dict_keys (store_all d occs)).
Proof.
  revert d. induction occs as [|occ occs IH]; intros d Hd; [done|].
  apply IH. rewrite dict_keys_set. by apply add_key_NoDup.
Qed.

Lemma store_all_get d occs header :
  dict_get (store_all d occs) header
  = match last_body header occs with
    | Some body => Some (body_text body)
    | None => dict_get d header
    end.
Proof.
  unfold last_body. revert d.
  induction occs as [|[k body] occs IH]; intros d; [done|].
  cbn [store_all fold_left List.filter fst snd]. fold (store_all (dict_set d k (body_text body)) occs).
  rewrite IH, dict_get_set.
  destruct (String.eqb_spec k header) as [->|Hne].
  - rewrite last_cons, decide_True by done. by destruct (last _).
  - by rewrite decide_False.
Qed.

End DictFacts.

Module SectionFacts.
Import Py Sections Spec PyFacts DictFacts Examples.

(** A header line has a header text that is not empty. *)
Lemma header_truthy line : is_header line = true → truthy (strip line) = true.
Proof.
  unfold is_header, SECTION_LABELS. cbn [existsb].
  intros H.
  repeat (apply orb_prop in H as [H|H];
          [by eapply contains_truthy; [|exact H]|]).
  done.
Qed.

Lemma body_lines_header line following :
  is_header line = true → body_lines (line :: following) = [].
Proof. unfold body_lines. simpl. by intros ->. Qed.

Lemma body_lines_content line following :
  is_header line = false → truthy (strip line) = true →
  body_lines (line :: following) = strip line :: body_lines following.
Proof.
  intros Hh Hb. unfold body_lines. cbn [take_while]. rewrite Hh.
  cbn [negb List.filter]. by rewrite Hb.
Qed.

Lemma body_lines_blank line following :
  is_header line = false → truthy (strip line) = false →
  body_lines (line :: following) = body_lines following.
Proof.
  intros Hh Hb. unfold body_lines. cbn [take_while]. rewrite Hh.
  cbn [negb List.filter]. by rewrite Hb.
Qed.

Lemma flushed_cons occ occ' occs :
  flushed (occ :: occ' :: occs) = occ :: flushed (occ' :: occs).
Proof. by destruct occ. Qed.

(** The loop and the statements after it, from a state with an open
    section: the open section and the later occurrences are stored,
    but for a last one with no content. *)
Lemma loop_open lines d header content :
  truthy header = true →
  finish (fold_left loop_body lines (Locals d (Some header) content))
  = store_all d (flushed ((header, content ++ body_lines lines)
                            :: occurrences lines)).
Proof.
  revert d header content.
  induction lines as [|line lines IH]; intros d header content Hh.
  { unfold finish, flush. simpl. rewrite Hh, app_nil_r. by destruct content. }
  cbn [fold_left occurrences]. unfold loop_body at 2.
  cbn [current_section current_content sections truthy_opt]. rewrite Hh.
  destruct (is_header line) eqn:Hline.
  - rewrite IH by by apply header_truthy.
    rewrite body_lines_header, app_nil_r, flushed_cons by done.
    by unfold flush.
  - destruct (truthy (strip line)) eqn:Hblank; cbn [andb].
    + rewrite IH by done.
      by rewrite body_lines_content, <- app_assoc by done.
    + rewrite IH by done. by rewrite body_lines_blank by done.
Qed.

(** The same before the first header: the lines are passed over. *)
Lemma loop_closed lines d content :
  finish (fold_left loop_body lines (Locals d None content))
  = store_all d (flushed (occurrences lines)).
Proof.
  induction lines as [|line lines IH]; [done|].
  cbn [fold_left occurrences]. unfold loop_body at 2.
  cbn [current_section current_content sections truthy_opt].
  destruct (is_header line) eqn:Hline; cbn [andb]; [|by rewrite IH].
  by rewrite loop_open by by apply header_truthy.
Qed.

(** The mapping returned for a text holds its flushed occurrences,
    stored in order. *)
Lemma parse_flushed text :
  parse_lesson_sections (Some text) = store_all [] (flushed_of text).
Proof.
  unfold parse_lesson_sections, flushed_of.
  destruct (truthy text) eqn:Ht; simpl; [apply loop_closed|].
  by destruct text.
Qed.

Lemma last_body_is_Some header occs :
  header ∈ map fst occs → is_Some (last_body header occs).
Proof.
  unfold last_body. intros Hin. apply fmap_is_Some, last_is_Some.
  induction occs as [|[k body] occs IH]; simpl in *.
  { by apply not_elem_of_nil in Hin. }
  destruct (String.eqb_spec k header) as [->|Hne]; [done|].
  apply IH. apply elem_of_cons in Hin as [?|?]; by simplify_eq.
Qed.

(** C6. The text "Overview:\nfoo\nLesson Procedure:\nbar" gives the
    mapping with "Overview:" bound to "foo" and "Lesson Procedure:"
    bound to "bar", in that order. *)
Theorem C6_two_sections :
  two_sections
  = ("Overview:" +:+ nl +:+ "foo" +:+ nl +:+ "Lesson Procedure:" +:+ nl
     +:+ "bar")
  ∧ parse_lesson_sections (Some two_sections)
    = [("Overview:", "foo"); ("Lesson Procedure:", "bar")]%string.
Proof. by vm_compute. Qed.

(** C10, as the code has it. A header text that is flushed has exactly
    one entry in the mapping; its body is the content accumulated
    after the last flushed occurrence of the header, every occurrence
    being flushed but a last header of the input with no content after
    it; the keys of the mapping are in order of first occurrence. *)
Theorem C10_repeated_header text header :
  header ∈ map fst (flushed_of text) →
  let mapping := parse_lesson_sections (Some text) in
  entries_under header mapping = 1
  ∧ (∃ body, last_body header (flushed_of text) = Some body
             ∧ dict_get mapping header = Some (body_text body))
  ∧ dict_keys mapping = first_occurrences (map fst (flushed_of text)).
Proof.
  intros Hin mapping. subst mapping. rewrite parse_flushed.
  destruct (last_body_is_Some _ _ Hin) as [body Hbody].
  assert (dict_get (store_all [] (flushed_of text)) header
          = Some (body_text body)) as Hget.
  { by rewrite store_all_get, Hbody. }
  split_and!.
  - apply entries_under_NoDup.
    + apply store_all_NoDup, NoDup_nil_2.
    + apply dict_get_is_Some. by rewrite Hget.
  - by eauto.
  - apply store_all_keys.
Qed.

Lemma C10_witness :
  let mapping := parse_lesson_sections (Some repeated_header) in
  entries_under "Overview:" mapping = 1
  ∧ (∃ body, last_body "Overview:" (flushed_of repeated_header) = Some body
             ∧ dict_get mapping "Overview:" = Some (body_text body))
  ∧ dict_keys mapping
    = first_occurrences (map fst (flushed_of repeated_header)).
Proof.
  apply (C10_repeated_header repeated_header "Overview:").
  vm_compute. left.
Defined.

(** C10, as stated, fails: the header "Overview:" occurs twice, no
    content follows its last occurrence, and the one entry under it
    holds the content of the first occurrence. *)
Lemma C10_counterexample :
  occurrences (split NL repeated_header_at_end)
  = [("Overview:", ["foo"]); ("Overview:", [])]%string
  ∧ body_text [] = EmptyString
  ∧ parse_lesson_sections (Some repeated_header_at_end)
    = [("Overview:", "foo")]%string.
Proof. by vm_compute. Qed.

End SectionFacts.

(** ** The quiz session state *)

Module QuizFacts.
Import Questions Quiz Examples.

Lemma size_bounded (X : gset nat) n : (∀ i, i ∈ X → i < n) → size X ≤ n.
Proof.
  intros HX. rewrite <- (size_set_seq (C:=gset nat) 0 n).
  apply subseteq_size. intros i Hi. apply elem_of_set_seq. specialize (HX i Hi). lia.
Qed.

Lemma well_formed_invariant s : well_formed s → score_invariant s.
Proof.
  intros (Hscore & Hidx & Hlen). split; [done|].
  rewrite <- Hlen. by apply size_bounded.
Qed.

Lemma quiz_initial_well_formed : well_formed initial.
Proof. split_and!; [done| |done]. by intros i ?%not_elem_of_empty. Qed.

Lemma size_add (X : gset nat) i : i ∉ X → size ({[i]} ∪ X) = S (size X).
Proof. intros Hi. rewrite size_union, size_singleton by set_solver. done. Qed.

Lemma size_add_le (X : gset nat) i : size X ≤ size ({[i]} ∪ X).
Proof. apply subseteq_size. set_solver. Qed.

Lemma size_remove (X : gset nat) i : i ∈ X → S (size (X ∖ {[i]})) = size X.
Proof.
  intros Hi. rewrite size_difference, size_singleton by set_solver.
  assert (size ({[i]} : gset nat) ≤ size X) as Hle.
  { apply subseteq_size. set_solver. }
  rewrite size_singleton in Hle. lia.
Qed.

Lemma quiz_generate_well_formed text question_type s :
  well_formed s → well_formed (generate text question_type s).
Proof.
  intros Hs. unfold generate. case_match; [|done].
  split_and!; simpl; [done| |done]. by intros i ?%not_elem_of_empty.
Qed.

Lemma quiz_regenerate_well_formed text question_type i s :
  well_formed s → well_formed (regenerate text question_type i s).
Proof.
  intros (Hscore & Hidx & Hlen). unfold regenerate, set_item.
  destruct (parse_generated_questions _ _) as [[|new_question rest]|];
    try done.
  case_decide as Hlt; [|done].
  case_decide as Hin; (split_and!; simpl; [| |by rewrite length_insert]).
  - pose proof (size_remove _ _ Hin). lia.
  - intros j [Hj _]%elem_of_difference. rewrite length_insert.
    by apply Hidx.
  - done.
  - intros j Hj. rewrite length_insert. by apply Hidx.
Qed.

Lemma submit_body_well_formed question i user_answer s :
  i < length (generated_questions s) →
  well_formed s → well_formed (submit_body question i user_answer s).
Proof.
  intros Hi (Hscore & Hidx & Hlen). split_and!; simpl; [| |done].
  - pose proof (size_add_le (answered_questions s) i).
    repeat case_match; try lia.
    rewrite size_add by done. lia.
  - intros j [->%elem_of_singleton|Hj]%elem_of_union; [done|by apply Hidx].
Qed.

Lemma submit_well_formed i user_answer s :
  well_formed s → well_formed (submit i user_answer s).
Proof.
  intros Hs. unfold submit.
  destruct (generated_questions s !! i) as [question|] eqn:Hq; [|done].
  apply lookup_lt_Some in Hq.
  destruct question; try done; case_decide; try done;
    by apply submit_body_well_formed.
Qed.

Lemma show_sample_well_formed i s :
  well_formed s → well_formed (show_sample i s).
Proof.
  intros (Hscore & Hidx & Hlen). unfold show_sample.
  destruct (generated_questions s !! i) as [question|] eqn:Hq; [|done].
  apply lookup_lt_Some in Hq.
  destruct question; try done; (split_and!; simpl; [| |done]).
  all: try (pose proof (size_add_le (answered_questions s) i); lia).
  all: intros j [->%elem_of_singleton|Hj]%elem_of_union; [done|by apply Hidx].
Qed.

Lemma quiz_step_well_formed s e : well_formed s → well_formed (step s e).
Proof.
  destruct e; simpl.
  - apply quiz_generate_well_formed.
  - intros _. apply quiz_initial_well_formed.
  - apply quiz_regenerate_well_formed.
  - apply submit_well_formed.
  - apply show_sample_well_formed.
Qed.

Lemma quiz_run_well_formed events s : well_formed s → well_formed (run s events).
Proof.
  revert s. induction events as [|e events IH]; intros s Hs; [done|].
  apply IH. by apply quiz_step_well_formed.
Qed.

(** With the handlers of the page (generate, clear, the regenerate
    button, submit, show sample answer), the invariant
    [current_score ≤ |answered_questions| ≤ total_questions] holds after
    every sequence of events. *)
Theorem page_keeps_score_invariant events :
  score_invariant (run initial events).
Proof. apply well_formed_invariant, quiz_run_well_formed, quiz_initial_well_formed. Qed.

Lemma press_well_formed s e : well_formed s → well_formed (Page.press s e).
Proof.
  destruct e; simpl.
  - apply quiz_generate_well_formed.
  - intros _. apply quiz_initial_well_formed.
  - done.
  - apply submit_well_formed.
  - apply show_sample_well_formed.
Qed.

Lemma presses_well_formed presses s :
  well_formed s → well_formed (Page.run s presses).
Proof.
  revert s. induction presses as [|e presses IH]; intros s Hs; [done|].
  apply IH. by apply press_well_formed.
Qed.

(** Every run of the page is a step of [step]: a press of a regenerate
    button is the step of a [Regenerate] with the empty response. *)
Lemma press_is_step s e : ∃ e', Page.press s e = step s e'.
Proof.
  destruct e as [text question_type| |text question_type i|i a|i].
  - by exists (Generate text question_type).
  - by exists Clear.
  - exists (Regenerate EmptyString question_type i). simpl.
    unfold regenerate. by rewrite ParserClaims.parse_blank.
  - by exists (Submit i a).
  - by exists (ShowSample i).
Qed.

(** The body of [regenerate_single_question], a function that no code
    of the repository calls or awaits: were it run after one correct
    answer, it would replace the question and take its index out of
    the answered set, leaving the score at 1 with no answered
    question. *)
Lemma unused_regenerate_body :
  let answered :=
    run initial [Generate one_question "True/False"; Submit 0 "True"] in
  let regenerated :=
    (regenerate_single_question new_question_text "True/False" 0 answered).1 in
  (current_score answered = 1%Z ∧ answered_questions answered = {[0]})
  ∧ current_score regenerated = 1%Z
  ∧ answered_questions regenerated = ∅.
Proof. by vm_compute. Qed.

(** C1. After every sequence of presses on the Questions page
    (generate, clear, the regenerate button of a question, submit,
    show sample answer) from the initial state,
    [current_score ≤ |answered_questions| ≤ total_questions]; so the
    score never exceeds the total. This holds of the runs of the page
    as they are, where a press of a regenerate button ends in the name
    error of [model] and changes nothing, and it holds as well of the
    sequences in which the statements after that call are reached. *)
Theorem C1_score_invariant :
  (∀ presses, score_invariant (Page.run initial presses))
  ∧ (∀ events, score_invariant (run initial events)).
Proof.
  split.
  - intros presses.
    apply well_formed_invariant, presses_well_formed, quiz_initial_well_formed.
  - apply page_keeps_score_invariant.
Qed.

(** C2 fails on the code. Two questions are loaded and question 0 is
    answered correctly: the score is 1 and 0 is answered. In the run of
    the regenerate button of question 0 the name [model] is unbound at
    the call of the service; the name error is caught and the state
    stays as it was, whatever the service would have answered:
    question 0 is not replaced, 0 is still answered and the score is
    still 1. So it is for every state, index and response. *)
Theorem C2_regenerate_button_changes_nothing :
  let answered :=
    Page.run initial [Generate two_questions "True/False"; Submit 0 "True"] in
  let pressed :=
    Page.press answered (Regenerate new_question_text "True/False" 0) in
  (parse_generated_questions new_question_text "True/False"
   = Ok [true_false "Water is wet?" "True"])
  ∧ (current_score answered = 1%Z ∧ answered_questions answered = {[0]})
  ∧ (generated_questions pressed
     = [true_false "Sky is blue?" "True"; true_false "Grass is red?" "False"]
     ∧ answered_questions pressed = {[0]}
     ∧ current_score pressed = 1%Z)
  ∧ (∀ s text question_type i,
       Page.press s (Regenerate text question_type i) = s).
Proof. split_and!; by vm_compute. Qed.

End QuizFacts.

(** ** The lesson session state *)

Module LessonFacts.
Import Lessons Examples.

Lemma alloc_spec lesson (h : gmap loc Lesson) :
  h !! (alloc lesson h).1 = None
  ∧ (alloc lesson h).2 = <[(alloc lesson h).1 := lesson]> h.
Proof.
  split; [|done]. apply not_elem_of_dom. unfold alloc. simpl. apply is_fresh.
Qed.

Lemma history_kept_refl s : history_kept s s.
Proof. by intros k lesson. Qed.

Lemma history_kept_trans s1 s2 s3 :
  history_kept s1 s2 → history_kept s2 s3 → history_kept s1 s3.
Proof. intros H12 H23 k lesson Hk. by apply H23, H12. Qed.

Lemma history_entry_Some s k lesson :
  history_entry s k = Some lesson ↔
  ∃ l, generated_lessons s !! k = Some l ∧ store s !! l = Some lesson.
Proof. unfold history_entry. apply bind_Some. Qed.

(** Writing to an object that is not in the history keeps the
    history. *)
Lemma store_write_kept s l lesson history' view' current' :
  l ∉ generated_lessons s →
  history_kept s (State (<[l:=lesson]> (store s)) current'
                        (generated_lessons s ++ history') view').
Proof.
  intros Hl k old (l' & Hk & Hold)%history_entry_Some.
  apply history_entry_Some. exists l'. simpl. split.
  - by apply lookup_app_l_Some.
  - rewrite lookup_insert_ne; [done|]. intros ->.
    apply Hl. by eapply list_elem_of_lookup_2.
Qed.

Lemma store_write_kept' s l lesson view' current' :
  l ∉ generated_lessons s →
  history_kept s (State (<[l:=lesson]> (store s)) current'
                        (generated_lessons s) view').
Proof.
  intros Hl. pose proof (store_write_kept s l lesson [] view' current' Hl) as H.
  by rewrite app_nil_r in H.
Qed.

Lemma fresh_not_in_history s lesson :
  well_formed s → (alloc lesson (store s)).1 ∉ generated_lessons s.
Proof.
  intros [Hhist _] Hin. apply Hhist in Hin as [old Hold].
  destruct (alloc_spec lesson (store s)) as [Hnone _]. congruence.
Qed.

Lemma write_section_well_formed s l lesson section body :
  well_formed s → current_lesson s = Some l →
  well_formed (write_section l lesson section body s)
  ∧ history_kept s (write_section l lesson section body s).
Proof.
  intros [Hhist Hcur] Hl. split; [split|]; simpl.
  - intros l' Hl'. apply lookup_insert_is_Some'. right. by apply Hhist.
  - done.
  - apply store_write_kept'. by apply Hcur.
Qed.

Lemma edited_current section s l lesson body :
  edited section s = Some (l, lesson, body) → current_lesson s = Some l.
Proof.
  unfold edited. destruct (current_view s); [|done].
  destruct (current_lesson s) as [l'|]; [|done].
  destruct (store s !! l'); simpl; [|done].
  destruct (dict_get _ _); simpl; [|done]. by intros [= -> _ _].
Qed.

Lemma lesson_generate_well_formed inputs lesson_plan s :
  well_formed s →
  well_formed (generate inputs lesson_plan s)
  ∧ history_kept s (generate inputs lesson_plan s).
Proof.
  intros Hs. unfold generate.
  destruct (negb _); [by split; [|apply history_kept_refl]|].
  destruct (Py.truthy_opt lesson_plan); [|by split; [|apply history_kept_refl]].
  set (new_lesson := set_content inputs (default EmptyString lesson_plan)).
  pose proof (fresh_not_in_history s new_lesson Hs) as Hfresh.
  destruct (alloc_spec new_lesson (store s)) as [Hl Hh].
  destruct (alloc new_lesson (store s)) as [l h] eqn:Halloc.
  simpl in Hfresh, Hl, Hh. subst h.
  destruct (alloc_spec new_lesson (<[l:=new_lesson]> (store s))) as [Hl' Hh'].
  destruct (alloc new_lesson (<[l:=new_lesson]> (store s)))
    as [l_copy h'] eqn:Halloc'.
  simpl in Hl', Hh'. subst h'.
  assert (l ≠ l_copy) as Hne.
  { intros <-. by rewrite lookup_insert_eq in Hl'. }
  destruct Hs as [Hhist Hcur]. split; [split|]; simpl.
  - intros l0 [Hl0| ->%list_elem_of_singleton]%elem_of_app.
    + apply lookup_insert_is_Some'. right.
      apply lookup_insert_is_Some'. right. by apply Hhist.
    + apply lookup_insert_is_Some'. by left.
  - intros l0 [= <-] [Hl0| ->%list_elem_of_singleton]%elem_of_app; done.
  - intros k old (l0 & Hk & Hold)%history_entry_Some.
    apply history_entry_Some. exists l0. simpl. split.
    + by apply lookup_app_l_Some.
    + assert (l0 ∈ generated_lessons s) by by eapply list_elem_of_lookup_2.
      rewrite !lookup_insert_ne; [done| |]; intros ->.
      * done.
      * apply lookup_insert_None in Hl' as [Hnone _]. congruence.
Qed.

Lemma select_history_well_formed idx s :
  well_formed s →
  well_formed (select_history idx s)
  ∧ history_kept s (select_history idx s).
Proof.
  intros Hs. unfold select_history.
  destruct (current_lesson s) as [l_cur|] eqn:Hcur;
    [|by split; [|apply history_kept_refl]].
  destruct (reverse (generated_lessons s) !! idx) as [l_old|];
    [|by split; [|apply history_kept_refl]].
  destruct (store s !! l_old) as [lesson|];
    [|by split; [|apply history_kept_refl]].
  pose proof (fresh_not_in_history s lesson Hs) as Hfresh.
  destruct (alloc lesson (store s)) as [l h] eqn:Halloc.
  unfold alloc in Halloc. simplify_eq. simpl in Hfresh.
  destruct Hs as [Hhist _]. split; [split|]; simpl.
  - intros l0 Hl0. apply lookup_insert_is_Some'. right. by apply Hhist.
  - by intros l0 [= <-].
  - by apply store_write_kept'.
Qed.

Lemma lesson_step_well_formed s e :
  well_formed s → well_formed (step s e) ∧ history_kept s (step s e).
Proof.
  intros Hs. destruct e; simpl.
  - destruct Hs. split; [by split|by intros k lesson].
  - by apply lesson_generate_well_formed.
  - unfold edit_section.
    destruct (edited section s) as [[[l lesson] body]|] eqn:He;
      [|by split; [|apply history_kept_refl]].
    destruct (negb _); [|by split; [|apply history_kept_refl]].
    eapply write_section_well_formed, edited_current; done.
  - unfold regenerate.
    destruct (edited section s) as [[[l lesson] body]|] eqn:He;
      [|by split; [|apply history_kept_refl]].
    destruct (Py.truthy_opt _); [|by split; [|apply history_kept_refl]].
    eapply write_section_well_formed, edited_current; done.
  - by apply select_history_well_formed.
Qed.

Lemma lesson_run_well_formed events s :
  well_formed s →
  well_formed (run s events) ∧ history_kept s (run s events).
Proof.
  revert s. induction events as [|e events IH]; intros s Hs.
  { by split; [|apply history_kept_refl]. }
  destruct (lesson_step_well_formed s e Hs) as [Hs' Hkept].
  destruct (IH _ Hs') as [Hrun Hkept']. split; [done|].
  by eapply history_kept_trans.
Qed.

Lemma lesson_initial_well_formed : well_formed initial.
Proof. split; [by intros l ?%not_elem_of_nil|done]. Qed.

(** The entry a commit appends holds the fields of the new lesson. *)
Lemma generate_commits inputs lesson_plan s :
  Py.truthy (objectives inputs) = true →
  Py.truthy lesson_plan = true →
  let committed := generate inputs (Some lesson_plan) s in
  current committed = Some (set_content inputs lesson_plan)
  ∧ history_entry committed (length (generated_lessons s))
    = Some (set_content inputs lesson_plan).
Proof.
  intros Hobj Hplan. unfold generate. rewrite Hobj. simpl. rewrite Hplan.
  unfold current, history_entry. simpl.
  rewrite lookup_app_r, Nat.sub_diag by done. simpl.
  set (l := fresh (dom (store s))).
  set (h := <[l:=set_content inputs lesson_plan]> (store s)).
  split; [|apply lookup_insert_eq].
  rewrite lookup_insert_ne; [apply lookup_insert_eq|].
  intros Heq. apply (is_fresh (dom h)). rewrite Heq.
  apply elem_of_dom. unfold h. rewrite lookup_insert_eq. by eauto.
Qed.

(** C8. A commit stores the new lesson as the current lesson and
    appends a copy of it to the history; whatever is done later
    (section edits and regenerations, which change the current lesson
    in place, further commits, selections from the history), the
    entry appended holds the fields the lesson had at commit time, and
    so do the entries committed before. *)
Theorem C8_history_entry_unchanged events inputs lesson_plan later :
  Py.truthy (objectives inputs) = true →
  Py.truthy lesson_plan = true →
  let s := run initial events in
  let committed := generate inputs (Some lesson_plan) s in
  let lesson := set_content inputs lesson_plan in
  current committed = Some lesson
  ∧ history_entry (run committed later) (length (generated_lessons s))
    = Some lesson
  ∧ history_kept s (run committed later).
Proof.
  intros Hobj Hplan s committed lesson.
  destruct (generate_commits inputs lesson_plan s Hobj Hplan)
    as [Hcur Hentry].
  destruct (lesson_run_well_formed events initial lesson_initial_well_formed) as [Hs _].
  destruct (lesson_generate_well_formed inputs (Some lesson_plan) s Hs)
    as [Hcommitted Hkept].
  destruct (lesson_run_well_formed later committed Hcommitted) as [_ Hlater].
  split_and!; [done|by apply Hlater|by eapply history_kept_trans].
Qed.

Lemma C8_witness :
  let later := [EditSection "Overview:" "changed";
                Regenerate "Lesson Procedure:" (Some "new")] in
  let committed := generate biology (Some two_sections) (run initial []) in
  (current committed = Some (set_content biology two_sections)
   ∧ history_entry (run committed later) (length (generated_lessons (run initial [])))
     = Some (set_content biology two_sections)
   ∧ history_kept (run initial []) (run committed later))
  ∧ content <$> current (run committed later)
    = Some (lines ["Overview:"; "changed"; ""; "Lesson Procedure:"; "new"; ""]).
Proof.
  split.
  - apply (C8_history_entry_unchanged [] biology two_sections); reflexivity.
  - vm_compute. reflexivity.
Defined.

End LessonFacts.

(** ** More on the question parser *)

Module ParserMore.
Import Py Questions Spec Terms PyFacts QuestionFacts Examples.

Lemma parse_mc_emits text :
  parse_generated_questions text "Multiple Choice"
  = Ok (concat (map mc_emits (re_split text))).
Proof.
  unfold parse_generated_questions.
  cbn [block_body String.eqb Ascii.eqb Bool.eqb].
  by rewrite (for_blocks_emits _ mc_emits) by apply mc_block_emits.
Qed.

Lemma parse_tf_emits text :
  parse_generated_questions text "True/False"
  = Ok (concat (map tf_emits (re_split text))).
Proof.
  unfold parse_generated_questions.
  cbn [block_body String.eqb Ascii.eqb Bool.eqb].
  by rewrite (for_blocks_emits _ tf_emits) by apply tf_block_emits.
Qed.

Lemma elem_of_concat_map {A B} (f : A → list B) (l : list A) (y : B) :
  y ∈ concat (map f l) → ∃ x, x ∈ l ∧ y ∈ f x.
Proof.
  intros (ys & Hys & Hy)%list_elem_of_In%in_concat.
  apply in_map_iff in Hys as (x & <- & Hx).
  exists x. split; by apply list_elem_of_In.
Qed.

Lemma truthy_nonempty s : truthy s = true → s ≠ EmptyString.
Proof. by destruct s. Qed.

(** The shape of a question a multiple-choice block gives. *)
Lemma mc_emits_shape block q :
  q ∈ mc_emits block →
  ∃ text options correct_answer,
    q = multiple_choice text options correct_answer
    ∧ text ≠ EmptyString
    ∧ correct_answer ≠ EmptyString
    ∧ correct_answer ∈ options.
Proof.
  unfold mc_emits. destruct (last _) as [option|] eqn:Hlast;
    [|by intros ?%not_elem_of_nil].
  destruct (_ && _) eqn:Hcond; [|by intros ?%not_elem_of_nil].
  intros ->%list_elem_of_singleton.
  apply andb_prop in Hcond as [[Hq _]%andb_prop Hc].
  eexists _, _, _. split_and!; [done|by apply truthy_nonempty..|].
  apply list_elem_of_In, in_map.
  apply last_Some_elem_of, list_elem_of_In, filter_In in Hlast.
  by destruct Hlast.
Qed.

Lemma labelled_block_question block line :
  last (List.filter has_answer_label (block_lines block)) = Some line →
  truthy (block_question block) = true.
Proof.
  unfold block_question. destruct (truthy (strip block)) eqn:Hb.
  - destruct (first_line_truthy _ Hb) as (line0 & rest & Hl & Hq).
    unfold block_lines. by rewrite Hl.
  - by rewrite block_lines_blank.
Qed.

(** The shape of a question a true/false block gives. *)
Lemma tf_emits_shape block q :
  q ∈ tf_emits block →
  ∃ text correct_answer,
    q = true_false text correct_answer
    ∧ text ≠ EmptyString
    ∧ (correct_answer = "True" ∨ correct_answer = "False").
Proof.
  unfold tf_emits. destruct (last _) as [line|] eqn:Hlast;
    [|by intros ?%not_elem_of_nil].
  intros ->%list_elem_of_singleton.
  eexists _, _. split_and!; [done| |].
  - by eapply truthy_nonempty, labelled_block_question.
  - unfold answer_value. destruct (contains _ _); by eauto.
Qed.

Lemma mc_parsed_shape text questions q :
  parse_generated_questions text "Multiple Choice" = Ok questions →
  q ∈ questions →
  ∃ text options correct_answer,
    q = multiple_choice text options correct_answer
    ∧ text ≠ EmptyString
    ∧ correct_answer ≠ EmptyString
    ∧ correct_answer ∈ options.
Proof.
  rewrite parse_mc_emits. intros [= <-] (block & _ & Hq)%elem_of_concat_map.
  by eapply mc_emits_shape.
Qed.

Lemma tf_parsed_shape text questions q :
  parse_generated_questions text "True/False" = Ok questions →
  q ∈ questions →
  ∃ text correct_answer,
    q = true_false text correct_answer
    ∧ text ≠ EmptyString
    ∧ (correct_answer = "True" ∨ correct_answer = "False").
Proof.
  rewrite parse_tf_emits. intros [= <-] (block & _ & Hq)%elem_of_concat_map.
  by eapply tf_emits_shape.
Qed.

(** X1. Every question the parser returns in multiple-choice mode is a
    multiple-choice question with a question text and a correct answer
    that are not empty, and its correct answer is one of its options. *)
Theorem X1_multiple_choice_well_formed text questions q :
  parse_generated_questions text "Multiple Choice" = Ok questions →
  q ∈ questions →
  ∃ question options correct_answer,
    q = multiple_choice question options correct_answer
    ∧ question ≠ EmptyString
    ∧ correct_answer ≠ EmptyString
    ∧ correct_answer ∈ options.
Proof.
  rewrite parse_mc_emits. intros [= <-] (block & _ & Hq)%elem_of_concat_map.
  by eapply mc_emits_shape.
Qed.

(** X2. Every question the parser returns in true/false mode is a
    true/false question with a question text that is not empty and the
    correct answer "True" or "False". *)
Theorem X2_true_false_well_formed text questions q :
  parse_generated_questions text "True/False" = Ok questions →
  q ∈ questions →
  ∃ question correct_answer,
    q = true_false question correct_answer
    ∧ question ≠ EmptyString
    ∧ (correct_answer = "True" ∨ correct_answer = "False").
Proof.
  rewrite parse_tf_emits. intros [= <-] (block & _ & Hq)%elem_of_concat_map.
  by eapply tf_emits_shape.
Qed.

Lemma sample_emits_nonblank question_type blocks :
  concat (map (sample_emits question_type) blocks)
  = map (sample_question question_type) (List.filter nonblank blocks).
Proof.
  induction blocks as [|block blocks IH]; [done|].
  cbn [map concat List.filter]. rewrite IH.
  unfold sample_emits at 1, nonblank at 2.
  by destruct (truthy (strip block)).
Qed.

Lemma parse_sample text question_type :
  question_type = "Short Answer" ∨ question_type = "Open Ended" →
  parse_generated_questions text question_type
  = Ok (map (sample_question question_type)
            (List.filter nonblank (re_split text))).
Proof.
  intros Hqt. unfold parse_generated_questions.
  assert (block_body question_type = Some (sample_block question_type))
    as -> by by destruct Hqt as [-> | ->].
  rewrite (for_blocks_emits _ (sample_emits question_type))
    by apply sample_block_emits.
  by rewrite sample_emits_nonblank.
Qed.

(** X3. In short-answer and open-ended mode no block is dropped but
    the blank ones: the parser returns one question for each block that
    is not blank, in order, of the type asked for, with a question text
    that is not empty; the sample answer may be empty. *)
Theorem X3_sample_blocks_kept :
  (∀ text,
      parse_generated_questions text "Short Answer"
      = Ok (map (fun block =>
                   short_answer (block_question block)
                     (strip (join nl (payload_lines block))))
                (List.filter nonblank (re_split text))))
  ∧ (∀ text,
       parse_generated_questions text "Open Ended"
       = Ok (map (fun block =>
                    open_ended (block_question block)
                      (strip (join nl (payload_lines block))))
                 (List.filter nonblank (re_split text))))
  ∧ (∀ block, nonblank block = true → block_question block ≠ EmptyString).
Proof.
  split_and!.
  - intros text. by rewrite parse_sample by by left.
  - intros text. by rewrite parse_sample by by right.
  - intros block Hb. apply truthy_nonempty. unfold block_question.
    destruct (first_line_truthy _ Hb) as (line0 & rest & Hl & Hq).
    unfold block_lines. by rewrite Hl.
Qed.

Lemma lower_true_false a c :
  (a = "True" ∨ a = "False") → (c = "True" ∨ c = "False") →
  String.eqb (lower a) (lower c) = true → a = c.
Proof. by intros [-> | ->] [-> | ->]. Qed.

(** X4. Every question the parser returns in multiple-choice or
    true/false mode can be answered correctly on the Questions page:
    the correct answer is one of the answers its radio offers,
    [check_answer] accepts it, and it accepts no other answer of the
    radio. *)
Theorem X4_one_radio_answer_accepted text question_type questions q :
  question_type = "Multiple Choice" ∨ question_type = "True/False" →
  parse_generated_questions text question_type = Ok questions →
  q ∈ questions →
  ∃ correct,
    correct ∈ radio_options q
    ∧ check_answer q correct = Some true
    ∧ ∀ answer, answer ∈ radio_options q →
                check_answer q answer = Some true → answer = correct.
Proof.
  intros [-> | ->] Hparse Hq.
  - destruct (mc_parsed_shape _ _ _ Hparse Hq)
      as (t & options & c & -> & _ & _ & Hc).
    exists c. simpl. split_and!; [done|by rewrite String.eqb_refl|].
    intros answer _ [= Heq]. by apply String.eqb_eq.
  - destruct (tf_parsed_shape _ _ _ Hparse Hq) as (t & c & -> & _ & Hc).
    exists c. simpl. split_and!.
    + destruct Hc as [-> | ->]; [by left|by right; left].
    + by rewrite String.eqb_refl.
    + intros answer Ha [= Heq]. apply lower_true_false; [|done..].
      apply elem_of_cons in Ha as [->|Ha]; [by left|].
      apply list_elem_of_singleton in Ha as ->. by right.
Qed.

Lemma X1_witness :
  ∃ question options correct_answer,
    multiple_choice "Capital of UK?" ["Paris"; "London"; "Rome"] "London"
    = multiple_choice question options correct_answer
    ∧ question ≠ EmptyString
    ∧ correct_answer ≠ EmptyString
    ∧ correct_answer ∈ options.
Proof.
  apply (X1_multiple_choice_well_formed capital_block
           [multiple_choice "Capital of UK?" ["Paris"; "London"; "Rome"]
                            "London"]).
  - vm_compute. reflexivity.
  - left.
Defined.

Lemma X2_witness :
  ∃ question correct_answer,
    true_false "Grass is red?" "False" = true_false question correct_answer
    ∧ question ≠ EmptyString
    ∧ (correct_answer = "True" ∨ correct_answer = "False").
Proof.
  apply (X2_true_false_well_formed two_questions
           [true_false "Sky is blue?" "True";
            true_false "Grass is red?" "False"]).
  - vm_compute. reflexivity.
  - right. left.
Defined.

Lemma X4_witness :
  ∃ correct,
    correct ∈ radio_options (true_false "Grass is red?" "False")
    ∧ check_answer (true_false "Grass is red?" "False") correct = Some true
    ∧ ∀ answer, answer ∈ radio_options (true_false "Grass is red?" "False") →
                check_answer (true_false "Grass is red?" "False") answer
                = Some true →
                answer = correct.
Proof.
  apply (X4_one_radio_answer_accepted two_questions "True/False"
           [true_false "Sky is blue?" "True";
            true_false "Grass is red?" "False"]).
  - by right.
  - vm_compute. reflexivity.
  - right. left.
Defined.

End ParserMore.

(** ** Questions of the lesson sections *)

Module SectionQuestionFacts.
Import Py Questions SectionQuestions Terms ParserMore Examples MoreExamples.

Lemma generated_question_parsed text question_type q :
  generate_single_question text question_type = Ok (Some q) →
  ∃ questions,
    parse_generated_questions text question_type = Ok questions
    ∧ q ∈ questions.
Proof.
  unfold generate_single_question.
  destruct (parse_generated_questions text question_type)
    as [questions|e]; [|done].
  simpl. intros [= Hhead]. exists questions. split; [done|].
  by apply head_Some_elem_of.
Qed.

(** X5. With a question type of the select box of a lesson section,
    the type the section stores with a question, [display_question]
    never offers a radio: whatever it shows is the question text and a
    text area, followed by the sample answer when there is one to
    show. *)
Theorem X5_section_question_never_radio
        question question_type answer pressed widgets :
  question_type ∈ QUESTION_TYPES →
  display_question question question_type answer pressed = Shown widgets →
  ∃ text, get_question question = Shown text
          ∧ (widgets = [Write text; TextArea]
             ∨ ∃ sample_answer,
                 get_sample_answer question = Shown sample_answer
                 ∧ widgets = [Write text; TextArea;
                              Info ("Sample Answer:" +:+ nl +:+ sample_answer)]).
Proof.
  intros Hqt. unfold display_question.
  destruct (get_question question) as [text|e]; [|done].
  assert (String.eqb question_type "multiple_choice" = false
          ∧ String.eqb question_type "true_false" = false) as [-> ->].
  { unfold QUESTION_TYPES in Hqt.
    repeat (apply elem_of_cons in Hqt as [->|Hqt]; [done|]).
    by apply not_elem_of_nil in Hqt. }
  simpl. destruct pressed.
  - destruct (get_sample_answer question) as [sample_answer|e]; [|done].
    simpl. intros [= <-]. exists text. split; [done|]. right. by eauto.
  - intros [= <-]. exists text. split; [done|]. by left.
Qed.

Lemma X5_witness :
  ∃ text, get_question (Some (short_answer "Why?" "Because.")) = Shown text
          ∧ ([Write "Why?"; TextArea;
              Info ("Sample Answer:" +:+ nl +:+ "Because.")]
             = [Write text; TextArea]
             ∨ ∃ sample_answer,
                 get_sample_answer (Some (short_answer "Why?" "Because."))
                 = Shown sample_answer
                 ∧ [Write "Why?"; TextArea;
                    Info ("Sample Answer:" +:+ nl +:+ "Because.")]
                   = [Write text; TextArea;
                      Info ("Sample Answer:" +:+ nl +:+ sample_answer)]).
Proof.
  apply (X5_section_question_never_radio
           (Some (short_answer "Why?" "Because.")) "Short Answer"
           EmptyString true).
  - right. right. left.
  - reflexivity.
Defined.

(** X6. A question generated for a lesson section in multiple-choice
    or true/false mode is shown, with the type the section stores, as
    its text and a text area; pressing its button raises the key error
    of ['sample_answer'], which such a question does not have. *)
Theorem X6_section_choice_question_key_error text question_type q answer :
  question_type = "Multiple Choice" ∨ question_type = "True/False" →
  generate_single_question text question_type = Ok (Some q) →
  (∃ question,
      display_question (Some q) question_type answer false
      = Shown [Write question; TextArea])
  ∧ display_question (Some q) question_type answer true
    = Raised (KeyError "sample_answer").
Proof.
  intros Hqt (questions & Hparse & Hq)%generated_question_parsed.
  destruct Hqt as [-> | ->].
  - destruct (mc_parsed_shape _ _ _ Hparse Hq)
      as (t & options & c & -> & _). by eauto.
  - destruct (tf_parsed_shape _ _ _ Hparse Hq) as (t & c & -> & _).
    by eauto.
Qed.

Lemma X6_witness :
  (∃ question,
      display_question
        (Some (multiple_choice "Capital of UK?" ["Paris"; "London"; "Rome"]
                               "London"))
        "Multiple Choice" "London" false
      = Shown [Write question; TextArea])
  ∧ display_question
      (Some (multiple_choice "Capital of UK?" ["Paris"; "London"; "Rome"]
                             "London"))
      "Multiple Choice" "London" true
    = Raised (KeyError "sample_answer").
Proof.
  apply (X6_section_choice_question_key_error capital_block).
  - by left.
  - vm_compute. reflexivity.
Defined.

(** X7. When the response gives no question, the handler of a lesson
    section still appends an entry, with no question in it, after the
    entries the section has; displaying that entry raises a type
    error, whatever its type and whether the button is pressed or
    not. *)
Theorem X7_section_entry_without_question
        section_idx text question_type section_questions :
  generate_single_question text question_type = Ok None →
  add_question section_idx text question_type section_questions !! section_idx
  = Some (default [] (section_questions !! section_idx)
          ++ [Entry None question_type])
  ∧ (∀ other, other ≠ section_idx →
              add_question section_idx text question_type section_questions
              !! other = section_questions !! other)
  ∧ ∀ answer pressed,
      display_question None question_type answer pressed = Raised TypeError.
Proof.
  intros Hnone. unfold add_question. rewrite Hnone. split_and!.
  - apply lookup_insert_eq.
  - intros other Hother. by apply lookup_insert_ne.
  - done.
Qed.

Lemma X7_witness :
  add_question 0 unmarked_block "Multiple Choice" ∅ !! 0
  = Some (default [] ((∅ : gmap nat (list entry)) !! 0)
          ++ [Entry None "Multiple Choice"])
  ∧ (∀ other, other ≠ 0 →
              add_question 0 unmarked_block "Multiple Choice" ∅ !! other
              = (∅ : gmap nat (list entry)) !! other)
  ∧ ∀ answer pressed,
      display_question None "Multiple Choice" answer pressed
      = Raised TypeError.
Proof.
  apply (X7_section_entry_without_question 0 unmarked_block
           "Multiple Choice" ∅).
  vm_compute. reflexivity.
Defined.

End SectionQuestionFacts.

(** ** More on the quiz session state *)

Module QuizMore.
Import Questions Quiz QuizFacts Examples MoreExamples.

Lemma step_score_nonneg s e :
  (0 ≤ current_score s)%Z → (0 ≤ current_score (step s e))%Z.
Proof.
  intros Hs. destruct e; simpl.
  - unfold generate. by case_match.
  - done.
  - unfold regenerate. repeat case_match; simpl; lia.
  - unfold submit, submit_body. repeat case_match; simpl; lia.
  - unfold show_sample. by repeat case_match.
Qed.

Lemma run_score_nonneg events s :
  (0 ≤ current_score s)%Z → (0 ≤ current_score (run s events))%Z.
Proof.
  revert s. induction events as [|e events IH]; intros s Hs; [done|].
  apply IH. by apply step_score_nonneg.
Qed.

(** X8. Whatever is done on the Questions page (generate, clear, the
    regenerate button, submit, show sample answer), the score is at
    least 0 and at most the number of answered questions, every answered
    index is the index of a question, and [total_questions] is the
    number of questions; so the score shown never exceeds the total. *)
Theorem X8_page_state_invariant events :
  let s := run initial events in
  (0 ≤ current_score s ≤ Z.of_nat (size (answered_questions s)))%Z
  ∧ size (answered_questions s) ≤ total_questions s
  ∧ total_questions s = length (generated_questions s)
  ∧ ∀ i, i ∈ answered_questions s → i < length (generated_questions s).
Proof.
  intros s.
  destruct (quiz_run_well_formed events initial quiz_initial_well_formed)
    as (Hscore & Hidx & Hlen).
  fold s in Hscore, Hidx, Hlen. split_and!; try done.
  - by apply (run_score_nonneg events initial).
  - rewrite <- Hlen. by apply size_bounded.
Qed.

(** X9. The index of a regeneration at its bounds, for a response that
    gives a question. On the page an index past the last question
    changes nothing. [regenerate_single_question] changes nothing and
    returns [False] for an index past the last question or below minus
    the number of questions; for a negative index within that range it
    replaces the question counted from the end, returns [True], and
    leaves the answered set and the score as they are. *)
Theorem X9_regenerate_index_bounds s text question_type new_question rest :
  parse_generated_questions text question_type = Ok (new_question :: rest) →
  let n := length (generated_questions s) in
  (∀ i, n ≤ i → regenerate text question_type i s = s)
  ∧ (∀ index, (index < - Z.of_nat n ∨ Z.of_nat n ≤ index)%Z →
              regenerate_single_question text question_type index s
              = (s, Some false))
  ∧ (∀ index, (- Z.of_nat n ≤ index < 0)%Z →
              regenerate_single_question text question_type index s
              = (State (<[Z.to_nat (Z.of_nat n + index) := new_question]>
                          (generated_questions s))
                       (current_score s) (total_questions s)
                       (answered_questions s),
                 Some true)).
Proof.
  intros Hparse n. split_and!.
  - intros i Hi. unfold regenerate, set_item. rewrite Hparse.
    by rewrite decide_False by lia.
  - intros index Hindex.
    unfold regenerate_single_question, set_item_int, set_item.
    rewrite Hparse. fold n.
    destruct (decide (0 ≤ index)%Z).
    + by rewrite decide_False by lia.
    + by rewrite decide_False by lia.
  - intros index Hindex.
    unfold regenerate_single_question, set_item_int, set_item.
    rewrite Hparse. fold n.
    rewrite (decide_False (P:=(0 ≤ index)%Z)) by lia.
    rewrite (decide_True (P:=(- Z.of_nat n ≤ index)%Z)) by lia.
    rewrite decide_True by lia.
    by rewrite decide_False by lia.
Qed.

Lemma X9_witness :
  let n := length (generated_questions two_loaded) in
  (∀ i, n ≤ i → regenerate new_question_text "True/False" i two_loaded
                = two_loaded)
  ∧ (∀ index, (index < - Z.of_nat n ∨ Z.of_nat n ≤ index)%Z →
              regenerate_single_question new_question_text "True/False"
                                         index two_loaded
              = (two_loaded, Some false))
  ∧ (∀ index, (- Z.of_nat n ≤ index < 0)%Z →
              regenerate_single_question new_question_text "True/False"
                                         index two_loaded
              = (State (<[Z.to_nat (Z.of_nat n + index) :=
                            true_false "Water is wet?" "True"]>
                          (generated_questions two_loaded))
                       (current_score two_loaded)
                       (total_questions two_loaded)
                       (answered_questions two_loaded),
                 Some true)).
Proof.
  apply (X9_regenerate_index_bounds two_loaded new_question_text
           "True/False" (true_false "Water is wet?" "True") []).
  vm_compute. reflexivity.
Defined.

End QuizMore.

(** ** More on the lesson session state *)

Module LessonMore.
Import Lessons LessonFacts Examples MoreExamples.

(** X10. In a state the page can reach, with a current lesson, the
    history button [idx] (latest first) makes the current lesson a new
    object with the fields of the entry counted [idx] from the end of
    the history; the history keeps its entries, and the new current
    lesson is none of its objects. *)
Theorem X10_select_history_copies events idx :
  let s := run initial events in
  is_Some (current_lesson s) →
  idx < length (generated_lessons s) →
  let s' := select_history idx s in
  (∃ lesson,
      history_entry s (length (generated_lessons s) - S idx) = Some lesson
      ∧ current s' = Some lesson)
  ∧ generated_lessons s' = generated_lessons s
  ∧ history_kept s s'
  ∧ ∀ l, current_lesson s' = Some l → l ∉ generated_lessons s'.
Proof.
  intros s [l_cur Hcur] Hidx s'.
  destruct (lesson_run_well_formed events initial lesson_initial_well_formed)
    as [Hs _]. fold s in Hs.
  destruct (select_history_well_formed idx s Hs) as [[_ Hfresh] Hkept].
  fold s' in Hfresh, Hkept.
  assert (∃ l_old lesson,
             reverse (generated_lessons s) !! idx = Some l_old
             ∧ generated_lessons s !! (length (generated_lessons s) - S idx)
               = Some l_old
             ∧ store s !! l_old = Some lesson) as (l_old & lesson & Hrev & Hl & Hold).
  { destruct (lookup_lt_is_Some_2 (generated_lessons s)
                (length (generated_lessons s) - S idx)) as [l_old Hl]; [lia|].
    destruct Hs as [Hhist _].
    destruct (Hhist l_old) as [lesson Hold];
      [by eapply list_elem_of_lookup_2|].
    exists l_old, lesson. by rewrite reverse_lookup. }
  assert (s' = State (<[fresh (dom (store s)) := lesson]> (store s))
                     (Some (fresh (dom (store s))))
                     (generated_lessons s) (current_view s)) as Hs'.
  { subst s'. unfold select_history. by rewrite Hcur, Hrev, Hold. }
  split_and!; [|by rewrite Hs'|done|done].
  exists lesson. split.
  - unfold history_entry. by rewrite Hl.
  - rewrite Hs'. unfold current. simpl. apply lookup_insert_eq.
Qed.

Lemma X10_witness :
  let s := run initial two_lessons in
  let s' := select_history 1 s in
  (∃ lesson,
      history_entry s (length (generated_lessons s) - 2) = Some lesson
      ∧ current s' = Some lesson)
  ∧ generated_lessons s' = generated_lessons s
  ∧ history_kept s s'
  ∧ ∀ l, current_lesson s' = Some l → l ∉ generated_lessons s'.
Proof.
  apply (X10_select_history_copies two_lessons 1).
  - vm_compute. by eauto.
  - vm_compute. lia.
Defined.

End LessonMore.

(** ** More on the section parser *)

Module SectionMore.
Import Py Sections Spec Terms PyFacts DictFacts SectionFacts Lessons.
Import Examples MoreExamples.

Lemma occurrences_header_lines lines k :
  k ∈ map fst (occurrences lines) →
  ∃ line, line ∈ lines ∧ is_header line = true ∧ k = strip line.
Proof.
  induction lines as [|line lines IH]; simpl.
  { by intros ?%not_elem_of_nil. }
  destruct (is_header line) eqn:Hline; simpl.
  - intros [->|Hk]%elem_of_cons.
    + exists line. split_and!; [by left|done..].
    + destruct (IH Hk) as (line' & ? & ? & ?). exists line'.
      split_and!; [by right|done..].
  - intros Hk. destruct (IH Hk) as (line' & ? & ? & ?). exists line'.
    split_and!; [by right|done..].
Qed.

Lemma flushed_elem_of occ occs : occ ∈ flushed occs → occ ∈ occs.
Proof.
  induction occs as [|[k body] occs IH]; [done|].
  destruct occs as [|occ' occs].
  - simpl. destruct (nonempty body); [done|by intros ?%not_elem_of_nil].
  - rewrite flushed_cons. intros [->|Hocc]%elem_of_cons; [by left|].
    right. by apply IH.
Qed.

Lemma add_keys_elem_of l seen k :
  k ∈ fold_left add_key l seen → k ∈ seen ∨ k ∈ l.
Proof.
  revert seen. induction l as [|x l IH]; intros seen; simpl; [by left|].
  intros [Hk|Hk]%IH; [|by right; right].
  unfold add_key in Hk. case_decide; [by left|].
  apply elem_of_app in Hk as [Hk|Hk%list_elem_of_singleton]; [by left|].
  subst. right. by left.
Qed.

Lemma parse_NoDup content :
  NoDup (dict_keys (parse_lesson_sections content)).
Proof.
  destruct content as [text|]; [|apply NoDup_nil_2].
  rewrite parse_flushed. apply store_all_NoDup, NoDup_nil_2.
Qed.

(** X11. The keys of the mapping the section parser returns are
    distinct, and each is the stripped text, not empty, of a line of
    the input that contains one of the nine labels; an input with no
    such line gives the empty mapping. *)
Theorem X11_section_keys_are_header_lines :
  (∀ content, NoDup (dict_keys (parse_lesson_sections content)))
  ∧ (∀ content k,
       k ∈ dict_keys (parse_lesson_sections content) →
       ∃ text line,
         content = Some text
         ∧ line ∈ split NL text
         ∧ is_header line = true
         ∧ k = strip line
         ∧ k ≠ EmptyString)
  ∧ (∀ text,
       (∀ line, line ∈ split NL text → is_header line = false) →
       parse_lesson_sections (Some text) = []).
Proof.
  assert (∀ text k,
             k ∈ dict_keys (parse_lesson_sections (Some text)) →
             ∃ line, line ∈ split NL text ∧ is_header line = true
                     ∧ k = strip line) as Hkeys.
  { intros text k. rewrite parse_flushed, store_all_keys. simpl.
    intros [?%not_elem_of_nil|Hk]%add_keys_elem_of; [done|].
    apply occurrences_header_lines.
    apply list_elem_of_fmap in Hk as (occ & -> & Hocc).
    apply list_elem_of_fmap. exists occ. split; [done|].
    by apply flushed_elem_of. }
  split_and!.
  - apply parse_NoDup.
  - intros [text|] k Hk; [|by apply not_elem_of_nil in Hk].
    destruct (Hkeys text k Hk) as (line & Hline & Hheader & ->).
    exists text, line. split_and!; try done.
    intros Hempty. pose proof (header_truthy _ Hheader) as Ht.
    by rewrite Hempty in Ht.
  - intros text Hnone.
    destruct (parse_lesson_sections (Some text)) as [|[k body] d] eqn:Hd;
      [done|].
    destruct (Hkeys text k) as (line & Hline & Hheader & _).
    { rewrite Hd. by left. }
    by rewrite (Hnone line Hline) in Hheader.
Qed.

(** *** Writing a mapping and reading it back *)

Lemma split_app_nl x y :
  split NL (x +:+ String NL y) = split NL x ++ split NL y.
Proof.
  induction x as [|c x IH]; [done|].
  change (split NL (String c x +:+ String NL y))
    with (if Ascii.eqb c NL then EmptyString :: split NL (x +:+ String NL y)
          else match split NL (x +:+ String NL y) with
               | [] => [String c EmptyString]
               | piece :: pieces => String c piece :: pieces
               end).
  change (split NL (String c x))
    with (if Ascii.eqb c NL then EmptyString :: split NL x
          else match split NL x with
               | [] => [String c EmptyString]
               | piece :: pieces => String c piece :: pieces
               end).
  rewrite IH. destruct (Ascii.eqb c NL); [done|].
  by destruct (split_cons NL x) as (piece & pieces & ->).
Qed.

Lemma split_join xs :
  xs ≠ [] → split NL (join nl xs) = concat (map (split NL) xs).
Proof.
  induction xs as [|x [|y xs] IH]; [done| |]; intros _.
  - simpl. by rewrite app_nil_r.
  - change (join nl (x :: y :: xs)) with (x +:+ String NL (join nl (y :: xs))).
    rewrite split_app_nl, IH by done. done.
Qed.

(** The lines of the text written for a mapping. *)
Lemma serialize_lines (d : dict string) :
  d ≠ [] →
  Forall (fun entry => split NL (fst entry) = [fst entry]) d →
  split NL (serialize d)
  = concat (map (fun entry => fst entry :: split NL (strip (snd entry))
                                ++ [EmptyString]) d).
Proof.
  intros Hd Hkeys. unfold serialize. rewrite split_join.
  - clear Hd. induction Hkeys as [|[k body] d Hk _ IH]; [done|].
    simpl in *. rewrite Hk, IH. simpl. by rewrite <- app_assoc.
  - by destruct d.
Qed.

Lemma body_lines_app_content ls following :
  Forall (fun line => is_header line = false) ls →
  body_lines (ls ++ following)
  = map strip (List.filter (fun line => truthy (strip line)) ls)
    ++ body_lines following.
Proof.
  induction 1 as [|line ls Hline _ IH]; [done|]. simpl.
  destruct (truthy (strip line)) eqn:Hblank.
  - rewrite body_lines_content by done. simpl. by rewrite IH.
  - by rewrite body_lines_blank.
Qed.

Lemma occurrences_app_content ls following :
  Forall (fun line => is_header line = false) ls →
  occurrences (ls ++ following) = occurrences following.
Proof. induction 1 as [|line ls Hline _ IH]; [done|]. simpl. by rewrite Hline. Qed.

Lemma section_lines_body (d : dict string) :
  Forall section_ok d →
  body_lines (concat (map (fun entry =>
                             fst entry :: split NL (strip (snd entry))
                               ++ [EmptyString]) d)) = [].
Proof.
  intros [|[k body] d' (Hheader & _) _]; [done|].
  simpl. by apply body_lines_header.
Qed.

Lemma section_lines_occurrences (d : dict string) :
  Forall section_ok d →
  occurrences (concat (map (fun entry =>
                              fst entry :: split NL (strip (snd entry))
                                ++ [EmptyString]) d))
  = map (fun entry => (fst entry, content_lines (snd entry))) d.
Proof.
  induction 1 as [|[k body] d (Hheader & Hstrip & _ & Hlines & _) Hd IH];
    [done|].
  simpl in *. rewrite Hheader, Hstrip. rewrite <- !app_assoc.
  rewrite body_lines_app_content, occurrences_app_content by done.
  simpl. rewrite body_lines_blank by done.
  rewrite (section_lines_body d Hd), app_nil_r. by rewrite IH.
Qed.

Lemma flushed_all occs :
  Forall (fun occ : string * list string => snd occ ≠ []) occs →
  flushed occs = occs.
Proof.
  induction 1 as [|[k body] occs Hocc _ IH]; [done|].
  destruct occs as [|occ occs].
  - simpl in *. by destruct body.
  - by rewrite flushed_cons, IH.
Qed.

Lemma dict_set_new {V} (d : dict V) k v :
  k ∉ dict_keys d → dict_set d k v = d ++ [(k, v)].
Proof.
  unfold dict_keys. induction d as [|[k' v'] d IH]; [done|].
  simpl. intros Hk. destruct (String.eqb_spec k' k) as [->|Hne].
  - exfalso. apply Hk. by left.
  - rewrite IH; [done|]. intros ?. apply Hk. by right.
Qed.

Lemma store_all_new d occs :
  NoDup (dict_keys d ++ map fst occs) →
  store_all d occs
  = d ++ map (fun occ => (fst occ, body_text (snd occ))) occs.
Proof.
  revert d. induction occs as [|[k body] occs IH]; intros d Hd.
  { simpl. by rewrite app_nil_r. }
  cbn [store_all fold_left fst snd map].
  fold (store_all (dict_set d k (body_text body)) occs).
  simpl in Hd. apply NoDup_app in Hd as (Hd1 & Hd2 & Hd3).
  apply NoDup_cons in Hd3 as [Hk Hoccs].
  rewrite dict_set_new by (intros Hin; apply (Hd2 _ Hin); by left).
  rewrite IH.
  - by rewrite <- app_assoc.
  - unfold dict_keys. rewrite map_app. simpl. rewrite <- app_assoc.
    apply NoDup_app. split_and!; [done| |by apply NoDup_cons].
    intros x Hx. by apply Hd2.
Qed.

(** The text written for a mapping is read back as the mapping with
    its bodies normalized. *)
Lemma read_back_serialized (d : dict string) :
  NoDup (dict_keys d) → Forall section_ok d →
  parse_lesson_sections (Some (serialize d)) = read_back d.
Proof.
  intros Hkeys Hd. destruct (decide (d = [])) as [->|Hne]; [done|].
  rewrite parse_flushed. unfold flushed_of.
  rewrite serialize_lines; [|done|].
  - rewrite section_lines_occurrences by done.
    rewrite flushed_all.
    + rewrite store_all_new.
      * unfold read_back, normalized. simpl. by rewrite map_map.
      * simpl. by rewrite map_map.
    + apply Forall_forall.
      intros occ (entry & <- & Hentry)%list_elem_of_In%in_map_iff.
      rewrite Forall_forall in Hd. apply list_elem_of_In in Hentry.
      by destruct (Hd entry Hentry) as (_ & _ & _ & _ & ?).
  - eapply Forall_impl; [done|]. by intros entry (_ & _ & ? & _).
Qed.

(** X12. Writing a section mapping as the edit view does and parsing
    the text again gives the mapping back, each body stripped of its
    blank lines and of the white space around its lines, provided the
    keys are distinct header lines without surrounding white space and
    every body has a line that is not blank and no header line. *)
Theorem X12_serialize_then_parse (d : dict string) :
  NoDup (dict_keys d) → Forall section_ok d →
  parse_lesson_sections (Some (serialize d))
  = map (fun entry =>
           (fst entry,
            strip (join nl
                     (map strip
                        (List.filter (fun line => truthy (strip line))
                                     (split NL (strip (snd entry))))))))
        d.
Proof. apply read_back_serialized. Qed.

Lemma edited_sections_ok : Forall section_ok edited_sections.
Proof.
  unfold edited_sections.
  repeat apply Forall_cons_2; [..|apply Forall_nil_2]; unfold section_ok;
    cbn [fst snd]; (split_and!; [vm_compute; reflexivity..| |]).
  all: try (vm_compute; repeat apply Forall_cons_2;
            try apply Forall_nil_2; reflexivity).
  all: vm_compute; discriminate.
Qed.

Lemma edited_sections_NoDup : NoDup (dict_keys edited_sections).
Proof. apply (bool_decide_unpack _). vm_compute. exact I. Qed.

Lemma X12_witness :
  parse_lesson_sections (Some (serialize edited_sections))
  = map (fun entry =>
           (fst entry,
            strip (join nl
                     (map strip
                        (List.filter (fun line => truthy (strip line))
                                     (split NL (strip (snd entry))))))))
        edited_sections.
Proof.
  apply (X12_serialize_then_parse edited_sections).
  - apply edited_sections_NoDup.
  - apply edited_sections_ok.
Defined.

End SectionMore.

(** ** Editing a section *)

Module EditMore.
Import Py Sections Spec Terms DictFacts SectionFacts SectionMore.
Import Lessons LessonFacts Examples MoreExamples.

(** X13. An edit of a section in the edit view, with a content other
    than the body shown, writes the current lesson's content so that
    the next parse gives the mapping with the new body in place of the
    old one, each body as it is read back; the other fields of the
    lesson stay. This holds when every entry of the new mapping is
    read back as one section: a body with a line that is not blank and
    no header line. *)
Theorem X13_edit_then_parse s section edited_content l lesson body :
  edited section s = Some (l, lesson, body) →
  edited_content ≠ body →
  let new_sections :=
    dict_set (parse_lesson_sections (Some (content lesson)))
             section edited_content in
  Forall section_ok new_sections →
  ∃ lesson',
    current (edit_section section edited_content s) = Some lesson'
    ∧ parse_lesson_sections (Some (content lesson')) = read_back new_sections
    ∧ set_content lesson' (content lesson) = lesson.
Proof.
  intros Hedited Hne new_sections Hok.
  unfold edit_section. rewrite Hedited.
  assert (String.eqb edited_content body = false) as ->
    by by apply String.eqb_neq.
  simpl. unfold current, write_section. simpl.
  rewrite (edited_current _ _ _ _ _ Hedited). simpl.
  rewrite lookup_insert_eq. eexists. split; [done|]. split.
  - simpl. apply read_back_serialized; [|done].
    unfold new_sections. rewrite dict_keys_set.
    apply add_key_NoDup, parse_NoDup.
  - by destruct lesson.
Qed.

Lemma X13_witness :
  let new_sections :=
    dict_set (parse_lesson_sections (Some two_sections))
             "Overview:" "  changed  " in
  ∃ lesson',
    current (edit_section "Overview:" "  changed  " one_lesson) = Some lesson'
    ∧ parse_lesson_sections (Some (content lesson')) = read_back new_sections
    ∧ set_content lesson' two_sections = set_content biology two_sections.
Proof.
  apply (X13_edit_then_parse one_lesson "Overview:" "  changed  "
           0 (set_content biology two_sections) "foo").
  - vm_compute. reflexivity.
  - discriminate.
  - repeat apply Forall_cons_2; [..|apply Forall_nil_2]; unfold section_ok;
      cbn [fst snd]; (split_and!; [vm_compute; reflexivity..| |]).
    all: try (vm_compute; repeat apply Forall_cons_2;
              try apply Forall_nil_2; reflexivity).
    all: vm_compute; discriminate.
Defined.

End EditMore.

(** ** Scores and questions with a correct answer *)

Module ScoreMore.
Import Py Questions Quiz Spec Terms QuestionFacts QuizFacts ParserMore.
Import Examples MoreExamples.

Lemma scorable_bound_step s e : scorable_bound s → scorable_bound (step s e).
Proof.
  unfold scorable_bound, answered_scorable. intros Hs. destruct e; simpl.
  - unfold generate. case_match; [|done]. simpl. lia.
  - simpl. lia.
  - unfold regenerate, set_item.
    destruct (parse_generated_questions _ _) as [[|new_question rest]|];
      try done.
    case_decide as Hlt; [|done].
    set (P := fun j => scorable_at (generated_questions s) j = true) in *.
    set (P' := fun j =>
           scorable_at (<[i:=new_question]> (generated_questions s)) j = true).
    assert (∀ j, j ≠ i → P' j ↔ P j) as Hagree.
    { intros j Hj. unfold P', P, scorable_at.
      by rewrite list_lookup_insert_ne by done. }
    case_decide as Hin; simpl; fold P'.
    + assert (filter P' (answered_questions s ∖ {[i]})
              = filter P (answered_questions s) ∖ {[i]}) as ->.
      { apply set_eq. intros j.
        rewrite elem_of_filter, !elem_of_difference, elem_of_filter,
          elem_of_singleton.
        split; [intros (Hp & Hj & Hji)|intros ((Hp & Hj) & Hji)];
          split_and!; try done; by apply (Hagree j Hji). }
      destruct (decide (i ∈ filter P (answered_questions s))) as [Hi|Hi].
      * pose proof (size_remove _ _ Hi). lia.
      * rewrite difference_disjoint_L by by apply disjoint_singleton_r. lia.
    + assert (filter P' (answered_questions s)
              = filter P (answered_questions s)) as ->; [|done].
      apply set_eq. intros j. rewrite !elem_of_filter.
      split; intros [Hp Hj]; (split; [|done]);
        apply (Hagree j); try done; by intros ->.
  - unfold submit.
    destruct (generated_questions s !! i) as [question|] eqn:Hq; [|done].
    set (P := fun j => scorable_at (generated_questions s) j = true) in *.
    assert (is_Some (check_answer question user_answer) → P i) as Hscorable.
    { unfold P, scorable_at. rewrite Hq.
      destruct question; simpl; by intros [? ?]. }
    destruct question; try done; (case_decide as Hin; [done|]);
      unfold submit_body; simpl; fold P.
    all: assert (filter P ({[i]} ∪ answered_questions s)
                 = {[i]} ∪ filter P (answered_questions s)) as ->
           by (apply set_eq; intros j;
               rewrite elem_of_filter, !elem_of_union, elem_of_filter,
                 elem_of_singleton;
               split; [intros (? & [->|?]); by eauto
                      |intros [->|[? ?]]; (split; [|by eauto]);
                       [apply Hscorable; simpl; by eauto|done] ]).
    all: rewrite size_add
           by (rewrite elem_of_filter; by intros [_ ?]).
    all: repeat case_match; lia.
  - unfold show_sample.
    destruct (generated_questions s !! i) as [question|] eqn:Hq; [|done].
    destruct question; try done; simpl.
    all: set (P := fun j => scorable_at (generated_questions s) j = true) in *.
    all: assert (size (filter P (answered_questions s))
                 ≤ size (filter P ({[i]} ∪ answered_questions s)))
           by (apply subseteq_size; intros j;
               rewrite !elem_of_filter, elem_of_union; intros [? ?]; by eauto).
    all: lia.
Qed.

Lemma scorable_bound_run events s :
  scorable_bound s → scorable_bound (run s events).
Proof.
  revert s. induction events as [|e events IH]; intros s Hs; [done|].
  apply IH. by apply scorable_bound_step.
Qed.

(** X14. Whatever is done on the Questions page, the score is at most
    the number of answered questions that have a "Submit" button
    (multiple choice and true/false): showing the sample answer of the
    other questions marks them answered and earns nothing. *)
Theorem X14_score_counts_scorable_questions events :
  let s := run initial events in
  (current_score s ≤ Z.of_nat (size (answered_scorable s)))%Z
  ∧ answered_scorable s ⊆ answered_questions s.
Proof.
  intros s. split.
  - apply (scorable_bound_run events initial). unfold scorable_bound.
    simpl. lia.
  - by intros i [_ Hi]%elem_of_filter.
Qed.

End ScoreMore.

(** ** Questions and blocks *)

Module BlockCount.
Import Py Questions Spec Terms QuestionFacts Examples.

Lemma emits_at_most_one (body : string → result (list Question))
      (emits : string → list Question) block :
  (∀ b, body b = Ok (emits b)) →
  (∀ b, length (emits b) ≤ 1) →
  (∀ b, nonblank b = false → body b = Ok []) →
  length (emits block) ≤ (if nonblank block then 1 else 0).
Proof.
  intros Hbody Hone Hblank. destruct (nonblank block) eqn:Hb; [done|].
  specialize (Hblank block Hb). rewrite Hbody in Hblank.
  by injection Hblank as ->.
Qed.

Lemma concat_at_most_one (emits : string → list Question) blocks :
  (∀ b, length (emits b) ≤ (if nonblank b then 1 else 0)) →
  length (concat (map emits blocks)) ≤ length (List.filter nonblank blocks).
Proof.
  intros Hemits. induction blocks as [|block blocks IH]; [done|].
  cbn [map concat List.filter]. rewrite length_app.
  specialize (Hemits block). destruct (nonblank block); simpl; lia.
Qed.

Lemma mc_at_most_one b :
  length (mc_emits b) ≤ (if nonblank b then 1 else 0).
Proof.
  apply (emits_at_most_one mc_block); [apply mc_block_emits| |].
  - intros b'. unfold mc_emits. repeat case_match; simpl; lia.
  - intros b' Hb. unfold mc_block. unfold nonblank in Hb. by rewrite Hb.
Qed.

Lemma tf_at_most_one b :
  length (tf_emits b) ≤ (if nonblank b then 1 else 0).
Proof.
  apply (emits_at_most_one tf_block); [apply tf_block_emits| |].
  - intros b'. unfold tf_emits. repeat case_match; simpl; lia.
  - intros b' Hb. unfold tf_block. unfold nonblank in Hb. by rewrite Hb.
Qed.

Lemma sample_at_most_one question_type b :
  length (sample_emits question_type b) ≤ (if nonblank b then 1 else 0).
Proof.
  apply (emits_at_most_one (sample_block question_type));
    [apply sample_block_emits| |].
  - intros b'. unfold sample_emits. repeat case_match; simpl; lia.
  - intros b' Hb. unfold sample_block. unfold nonblank in Hb. by rewrite Hb.
Qed.

(** X15. Whatever the question type, the parser returns at most one
    question for each block of the text that is not blank, and none for
    a blank block: it never returns more questions than the text has
    blocks that are not blank. *)
Theorem X15_at_most_one_question_per_block text question_type questions :
  parse_generated_questions text question_type = Ok questions →
  length questions ≤ length (List.filter nonblank (re_split text)).
Proof.
  unfold parse_generated_questions, block_body.
  repeat case_match; simplify_eq.
  - rewrite (for_blocks_emits _ mc_emits) by apply mc_block_emits.
    intros [= <-]. apply concat_at_most_one, mc_at_most_one.
  - rewrite (for_blocks_emits _ tf_emits) by apply tf_block_emits.
    intros [= <-]. apply concat_at_most_one, tf_at_most_one.
  - rewrite (for_blocks_emits _ (sample_emits question_type))
      by apply sample_block_emits.
    intros [= <-]. apply concat_at_most_one, sample_at_most_one.
  - intros [= <-]. simpl. lia.
Qed.

Lemma X15_witness :
  length [multiple_choice "Capital of UK?" ["Paris"; "London"] "London"]
  ≤ length (List.filter nonblank (re_split two_blocks)).
Proof.
  apply (X15_at_most_one_question_per_block two_blocks "Multiple Choice").
  vm_compute. reflexivity.
Defined.

End BlockCount.
